(** * Soulmate AI: the live-call pipeline and the text chat, embedded in Rocq

    The development follows the TypeScript sources:
    - [types.ts]: [ConnectionState], [Message];
    - [components/LiveView.tsx]: the refs of the component, [startCamera],
      [stopCamera], [connectToLiveApi] with its session callbacks, and
      [disconnect];
    - [components/DeepChat.tsx]: [handleSend];
    - [App.tsx]: the screen that is shown;
    - [utils/audio-utils.ts] is not part of the sources: [createPcmBlob] is
      modelled from the specification in [Module AudioUtils]; in the live
      call its result, and the result of [decode] and [decodeAudioData], are
      answers of the environment.

    JavaScript runs one handler at a time; a handler that reaches an [await]
    or registers a callback leaves a task behind that runs later.  The model
    keeps these tasks in the state and runs each synchronous piece of code as
    one step. *)

From stdpp Require Import base numbers list strings gmap sets pretty.
From Stdlib Require Import Ascii QArith Qround Qminmax Lqa.

Local Open Scope N_scope.

Notation "s |> f" := (f s) (at level 45, left associativity, only parsing).

(** ** types.ts *)

Inductive ConnectionState := DISCONNECTED | CONNECTING | CONNECTED | ERROR.

#[global] Instance ConnectionState_eq_dec : EqDecision ConnectionState.
Proof. solve_decision. Defined.

(** JavaScript truthiness of a string: the empty string is falsy. *)
Definition truthy (x : string) : bool :=
  match x with EmptyString => false | String _ _ => true end.

(** ** The messages of the remote session (the fields the component reads) *)

Module SDK.

Record Blob := { data : option string; mimeType : option string }.

Record Part := { inlineData : option Blob }.

Record Content := { parts : option (list Part) }.

Record LiveServerContent := { modelTurn : option Content; interrupted : option bool }.

Record LiveServerMessage := { serverContent : option LiveServerContent }.

End SDK.

Module LiveView.

(** *** Data *)

(** The payload of [session.sendRealtimeInput({ media })]. *)
Record Media := { mimeType : string; data : string }.

(** A call of [source.start(when)] on a buffer source of the given duration.
    Times count sample frames of the 24 kHz output context: both
    [currentTime] and [AudioBuffer.duration] are a number of frames over the
    sample rate.  The rounding of the double-precision sum is not modelled. *)
Record Started := { node : positive; when : N; duration : N }.

(** What the component hands back to the browser. *)
Inductive Resource :=
| Session (p : positive)       (* session.close() *)
| Context (c : positive)       (* AudioContext.close() *)
| Stream (m : positive)        (* every track of the stream stopped *)
| Interval (i : positive).     (* window.clearInterval *)

(** A piece of a handler that runs later: the rest of an async function after
    an [await], or a registered callback. *)
Inductive Task :=
| AudioSendThen (pcmBlob : Media)                  (* LiveView.tsx, .then of onaudioprocess *)
| ToBlobCallback                                   (* callback of canvas.toBlob *)
| BlobToBase64Done                                 (* after await blobToBase64(blob) *)
| VideoSendThen (base64Data : string)              (* .then of the video frame *)
| DecodeAudioDataDone (message : SDK.LiveServerMessage)
                                                   (* onmessage after await decodeAudioData *)
| DisconnectAwaitDone (p : positive).              (* disconnect after await sessionPromise *)

(** What the browser or the session answers when a task runs. *)
Inductive Outcome :=
| SessionResolved (callThrows : bool)   (* the promise gave a session; the call made on it throws or not *)
| SessionRejected
| BlobReady (present : bool)            (* toBlob passes a blob or null *)
| Base64Read (res : option string)      (* the FileReader result, or its error *)
| Decoded (res : option N).             (* the duration of the decoded buffer, or a decoding error *)

(** The React state and the refs of [LiveView], then the browser around it:
    the clock of the output context, the next fresh identity, the calls the
    component made ([sent], [started], [stopped], [released], [console]) and
    the tasks that are waiting. [mounted] stands for [videoRef.current] and
    [canvasRef.current], which React sets while the component is mounted. *)
Record State := {
  connectionState : ConnectionState;
  error : option string;
  streamRef : option positive;
  audioContextRef : option positive;
  inputAudioContextRef : option positive;
  nextStartTimeRef : N;
  sessionPromiseRef : option positive;
  videoIntervalRef : option positive;
  sourceNodesRef : gset positive;
  isConnectedRef : bool;
  apiKey : string;
  mounted : bool;
  currentTime : N;
  nextId : positive;
  sent : list Media;
  started : list Started;
  stopped : list positive;
  released : list Resource;
  console : list string;
  pending : list Task
}.

Definition initial (key : string) : State :=
  {| connectionState := DISCONNECTED; error := None; streamRef := None;
     audioContextRef := None; inputAudioContextRef := None; nextStartTimeRef := 0;
     sessionPromiseRef := None; videoIntervalRef := None; sourceNodesRef := ∅;
     isConnectedRef := false; apiKey := key; mounted := true; currentTime := 0;
     nextId := 1%positive; sent := []; started := []; stopped := []; released := [];
     console := []; pending := [] |}.

(** One setter per field that the handlers assign. *)

Definition setConnectionState (v : ConnectionState) (s : State) : State :=
  {| connectionState := v; error := error s; streamRef := streamRef s;
     audioContextRef := audioContextRef s; inputAudioContextRef := inputAudioContextRef s;
     nextStartTimeRef := nextStartTimeRef s; sessionPromiseRef := sessionPromiseRef s;
     videoIntervalRef := videoIntervalRef s; sourceNodesRef := sourceNodesRef s;
     isConnectedRef := isConnectedRef s; apiKey := apiKey s; mounted := mounted s;
     currentTime := currentTime s; nextId := nextId s; sent := sent s; started := started s;
     stopped := stopped s; released := released s; console := console s; pending := pending s |}.

Definition setError (v : option string) (s : State) : State :=
  {| connectionState := connectionState s; error := v; streamRef := streamRef s;
     audioContextRef := audioContextRef s; inputAudioContextRef := inputAudioContextRef s;
     nextStartTimeRef := nextStartTimeRef s; sessionPromiseRef := sessionPromiseRef s;
     videoIntervalRef := videoIntervalRef s; sourceNodesRef := sourceNodesRef s;
     isConnectedRef := isConnectedRef s; apiKey := apiKey s; mounted := mounted s;
     currentTime := currentTime s; nextId := nextId s; sent := sent s; started := started s;
     stopped := stopped s; released := released s; console := console s; pending := pending s |}.

Definition set_streamRef (v : option positive) (s : State) : State :=
  {| connectionState := connectionState s; error := error s; streamRef := v;
     audioContextRef := audioContextRef s; inputAudioContextRef := inputAudioContextRef s;
     nextStartTimeRef := nextStartTimeRef s; sessionPromiseRef := sessionPromiseRef s;
     videoIntervalRef := videoIntervalRef s; sourceNodesRef := sourceNodesRef s;
     isConnectedRef := isConnectedRef s; apiKey := apiKey s; mounted := mounted s;
     currentTime := currentTime s; nextId := nextId s; sent := sent s; started := started s;
     stopped := stopped s; released := released s; console := console s; pending := pending s |}.

Definition set_audioContextRef (v : option positive) (s : State) : State :=
  {| connectionState := connectionState s; error := error s; streamRef := streamRef s;
     audioContextRef := v; inputAudioContextRef := inputAudioContextRef s;
     nextStartTimeRef := nextStartTimeRef s; sessionPromiseRef := sessionPromiseRef s;
     videoIntervalRef := videoIntervalRef s; sourceNodesRef := sourceNodesRef s;
     isConnectedRef := isConnectedRef s; apiKey := apiKey s; mounted := mounted s;
     currentTime := currentTime s; nextId := nextId s; sent := sent s; started := started s;
     stopped := stopped s; released := released s; console := console s; pending := pending s |}.

Definition set_inputAudioContextRef (v : option positive) (s : State) : State :=
  {| connectionState := connectionState s; error := error s; streamRef := streamRef s;
     audioContextRef := audioContextRef s; inputAudioContextRef := v;
     nextStartTimeRef := nextStartTimeRef s; sessionPromiseRef := sessionPromiseRef s;
     videoIntervalRef := videoIntervalRef s; sourceNodesRef := sourceNodesRef s;
     isConnectedRef := isConnectedRef s; apiKey := apiKey s; mounted := mounted s;
     currentTime := currentTime s; nextId := nextId s; sent := sent s; started := started s;
     stopped := stopped s; released := released s; console := console s; pending := pending s |}.

Definition set_nextStartTimeRef (v : N) (s : State) : State :=
  {| connectionState := connectionState s; error := error s; streamRef := streamRef s;
     audioContextRef := audioContextRef s; inputAudioContextRef := inputAudioContextRef s;
     nextStartTimeRef := v; sessionPromiseRef := sessionPromiseRef s;
     videoIntervalRef := videoIntervalRef s; sourceNodesRef := sourceNodesRef s;
     isConnectedRef := isConnectedRef s; apiKey := apiKey s; mounted := mounted s;
     currentTime := currentTime s; nextId := nextId s; sent := sent s; started := started s;
     stopped := stopped s; released := released s; console := console s; pending := pending s |}.

Definition set_sessionPromiseRef (v : option positive) (s : State) : State :=
  {| connectionState := connectionState s; error := error s; streamRef := streamRef s;
     audioContextRef := audioContextRef s; inputAudioContextRef := inputAudioContextRef s;
     nextStartTimeRef := nextStartTimeRef s; sessionPromiseRef := v;
     videoIntervalRef := videoIntervalRef s; sourceNodesRef := sourceNodesRef s;
     isConnectedRef := isConnectedRef s; apiKey := apiKey s; mounted := mounted s;
     currentTime := currentTime s; nextId := nextId s; sent := sent s; started := started s;
     stopped := stopped s; released := released s; console := console s; pending := pending s |}.

Definition set_videoIntervalRef (v : option positive) (s : State) : State :=
  {| connectionState := connectionState s; error := error s; streamRef := streamRef s;
     audioContextRef := audioContextRef s; inputAudioContextRef := inputAudioContextRef s;
     nextStartTimeRef := nextStartTimeRef s; sessionPromiseRef := sessionPromiseRef s;
     videoIntervalRef := v; sourceNodesRef := sourceNodesRef s;
     isConnectedRef := isConnectedRef s; apiKey := apiKey s; mounted := mounted s;
     currentTime := currentTime s; nextId := nextId s; sent := sent s; started := started s;
     stopped := stopped s; released := released s; console := console s; pending := pending s |}.

Definition set_sourceNodesRef (v : gset positive) (s : State) : State :=
  {| connectionState := connectionState s; error := error s; streamRef := streamRef s;
     audioContextRef := audioContextRef s; inputAudioContextRef := inputAudioContextRef s;
     nextStartTimeRef := nextStartTimeRef s; sessionPromiseRef := sessionPromiseRef s;
     videoIntervalRef := videoIntervalRef s; sourceNodesRef := v;
     isConnectedRef := isConnectedRef s; apiKey := apiKey s; mounted := mounted s;
     currentTime := currentTime s; nextId := nextId s; sent := sent s; started := started s;
     stopped := stopped s; released := released s; console := console s; pending := pending s |}.

Definition set_isConnectedRef (v : bool) (s : State) : State :=
  {| connectionState := connectionState s; error := error s; streamRef := streamRef s;
     audioContextRef := audioContextRef s; inputAudioContextRef := inputAudioContextRef s;
     nextStartTimeRef := nextStartTimeRef s; sessionPromiseRef := sessionPromiseRef s;
     videoIntervalRef := videoIntervalRef s; sourceNodesRef := sourceNodesRef s;
     isConnectedRef := v; apiKey := apiKey s; mounted := mounted s; currentTime := currentTime s;
     nextId := nextId s; sent := sent s; started := started s; stopped := stopped s;
     released := released s; console := console s; pending := pending s |}.

Definition set_mounted (v : bool) (s : State) : State :=
  {| connectionState := connectionState s; error := error s; streamRef := streamRef s;
     audioContextRef := audioContextRef s; inputAudioContextRef := inputAudioContextRef s;
     nextStartTimeRef := nextStartTimeRef s; sessionPromiseRef := sessionPromiseRef s;
     videoIntervalRef := videoIntervalRef s; sourceNodesRef := sourceNodesRef s;
     isConnectedRef := isConnectedRef s; apiKey := apiKey s; mounted := v;
     currentTime := currentTime s; nextId := nextId s; sent := sent s; started := started s;
     stopped := stopped s; released := released s; console := console s; pending := pending s |}.

Definition set_currentTime (v : N) (s : State) : State :=
  {| connectionState := connectionState s; error := error s; streamRef := streamRef s;
     audioContextRef := audioContextRef s; inputAudioContextRef := inputAudioContextRef s;
     nextStartTimeRef := nextStartTimeRef s; sessionPromiseRef := sessionPromiseRef s;
     videoIntervalRef := videoIntervalRef s; sourceNodesRef := sourceNodesRef s;
     isConnectedRef := isConnectedRef s; apiKey := apiKey s; mounted := mounted s;
     currentTime := v; nextId := nextId s; sent := sent s; started := started s;
     stopped := stopped s; released := released s; console := console s; pending := pending s |}.

Definition set_nextId (v : positive) (s : State) : State :=
  {| connectionState := connectionState s; error := error s; streamRef := streamRef s;
     audioContextRef := audioContextRef s; inputAudioContextRef := inputAudioContextRef s;
     nextStartTimeRef := nextStartTimeRef s; sessionPromiseRef := sessionPromiseRef s;
     videoIntervalRef := videoIntervalRef s; sourceNodesRef := sourceNodesRef s;
     isConnectedRef := isConnectedRef s; apiKey := apiKey s; mounted := mounted s;
     currentTime := currentTime s; nextId := v; sent := sent s; started := started s;
     stopped := stopped s; released := released s; console := console s; pending := pending s |}.

Definition set_sent (v : list Media) (s : State) : State :=
  {| connectionState := connectionState s; error := error s; streamRef := streamRef s;
     audioContextRef := audioContextRef s; inputAudioContextRef := inputAudioContextRef s;
     nextStartTimeRef := nextStartTimeRef s; sessionPromiseRef := sessionPromiseRef s;
     videoIntervalRef := videoIntervalRef s; sourceNodesRef := sourceNodesRef s;
     isConnectedRef := isConnectedRef s; apiKey := apiKey s; mounted := mounted s;
     currentTime := currentTime s; nextId := nextId s; sent := v; started := started s;
     stopped := stopped s; released := released s; console := console s; pending := pending s |}.

Definition set_started (v : list Started) (s : State) : State :=
  {| connectionState := connectionState s; error := error s; streamRef := streamRef s;
     audioContextRef := audioContextRef s; inputAudioContextRef := inputAudioContextRef s;
     nextStartTimeRef := nextStartTimeRef s; sessionPromiseRef := sessionPromiseRef s;
     videoIntervalRef := videoIntervalRef s; sourceNodesRef := sourceNodesRef s;
     isConnectedRef := isConnectedRef s; apiKey := apiKey s; mounted := mounted s;
     currentTime := currentTime s; nextId := nextId s; sent := sent s; started := v;
     stopped := stopped s; released := released s; console := console s; pending := pending s |}.

Definition set_stopped (v : list positive) (s : State) : State :=
  {| connectionState := connectionState s; error := error s; streamRef := streamRef s;
     audioContextRef := audioContextRef s; inputAudioContextRef := inputAudioContextRef s;
     nextStartTimeRef := nextStartTimeRef s; sessionPromiseRef := sessionPromiseRef s;
     videoIntervalRef := videoIntervalRef s; sourceNodesRef := sourceNodesRef s;
     isConnectedRef := isConnectedRef s; apiKey := apiKey s; mounted := mounted s;
     currentTime := currentTime s; nextId := nextId s; sent := sent s; started := started s;
     stopped := v; released := released s; console := console s; pending := pending s |}.

Definition set_released (v : list Resource) (s : State) : State :=
  {| connectionState := connectionState s; error := error s; streamRef := streamRef s;
     audioContextRef := audioContextRef s; inputAudioContextRef := inputAudioContextRef s;
     nextStartTimeRef := nextStartTimeRef s; sessionPromiseRef := sessionPromiseRef s;
     videoIntervalRef := videoIntervalRef s; sourceNodesRef := sourceNodesRef s;
     isConnectedRef := isConnectedRef s; apiKey := apiKey s; mounted := mounted s;
     currentTime := currentTime s; nextId := nextId s; sent := sent s; started := started s;
     stopped := stopped s; released := v; console := console s; pending := pending s |}.

Definition set_console (v : list string) (s : State) : State :=
  {| connectionState := connectionState s; error := error s; streamRef := streamRef s;
     audioContextRef := audioContextRef s; inputAudioContextRef := inputAudioContextRef s;
     nextStartTimeRef := nextStartTimeRef s; sessionPromiseRef := sessionPromiseRef s;
     videoIntervalRef := videoIntervalRef s; sourceNodesRef := sourceNodesRef s;
     isConnectedRef := isConnectedRef s; apiKey := apiKey s; mounted := mounted s;
     currentTime := currentTime s; nextId := nextId s; sent := sent s; started := started s;
     stopped := stopped s; released := released s; console := v; pending := pending s |}.

Definition set_pending (v : list Task) (s : State) : State :=
  {| connectionState := connectionState s; error := error s; streamRef := streamRef s;
     audioContextRef := audioContextRef s; inputAudioContextRef := inputAudioContextRef s;
     nextStartTimeRef := nextStartTimeRef s; sessionPromiseRef := sessionPromiseRef s;
     videoIntervalRef := videoIntervalRef s; sourceNodesRef := sourceNodesRef s;
     isConnectedRef := isConnectedRef s; apiKey := apiKey s; mounted := mounted s;
     currentTime := currentTime s; nextId := nextId s; sent := sent s; started := started s;
     stopped := stopped s; released := released s; console := console s; pending := v |}.

(** *** The calls the component makes on the browser and the session *)

Definition null {A} (o : option A) : bool :=
  match o with None => true | Some _ => false end.

Definition log (msg : string) (s : State) : State :=
  set_console (console s ++ [msg]) s.

Definition release (r : Resource) (s : State) : State :=
  set_released (released s ++ [r]) s.

Definition defer (t : Task) (s : State) : State :=
  set_pending (pending s ++ [t]) s.

Definition sendRealtimeInput (media : Media) (s : State) : State :=
  set_sent (sent s ++ [media]) s.

(** A new object (audio context, session promise, interval, source node). *)
Definition fresh (s : State) : positive * State :=
  (nextId s, set_nextId (Pos.succ (nextId s)) s).

(** *** startCamera, stopCamera *)

(** [gum] is the answer of [navigator.mediaDevices.getUserMedia]: a stream, or
    [None] when the promise rejects (permission denied, no device). *)
Definition startCamera (gum : option positive) (s : State) : option positive * State :=
  match gum with
  | Some stream => (Some stream, s |> set_streamRef (Some stream))
  | None =>
      (None, s |> log "Error accessing media devices:"
               |> setError (Some "Camera/Mic permission denied or unavailable."))
  end.

Definition stopCamera (s : State) : State :=
  let s := match streamRef s with
           | Some stream => s |> release (Stream stream) |> set_streamRef None
           | None => s
           end in
  match videoIntervalRef s with
  | Some i => s |> release (Interval i) |> set_videoIntervalRef None
  | None => s
  end.

(** *** connectToLiveApi

    The function is run through its awaits in one piece.  [initThrows] says
    that the [try] block throws; every statement of it that can throw (the
    client, the two audio contexts, their [resume]) comes before the first
    assignment to a ref.  [t0] is [outputCtx.currentTime] once the new output
    context runs. *)
Definition connectToLiveApi (gum : option positive) (initThrows : bool) (t0 : N)
    (s : State) : State :=
  if negb (truthy (apiKey s)) then s |> setError (Some "API Key is missing.") else
  let '(stream, s) := match streamRef s with
                      | Some stream => (Some stream, s)
                      | None => startCamera gum s
                      end in
  match stream with
  | None => s
  | Some _ =>
      let s := s |> setConnectionState CONNECTING |> setError None in
      if initThrows then
        s |> log "err" |> setError (Some "Failed to initialize Gemini Client.")
          |> setConnectionState ERROR |> set_isConnectedRef false
      else
        let '(inputCtx, s) := fresh s in
        let '(outputCtx, s) := fresh s in
        let s := s |> set_inputAudioContextRef (Some inputCtx)
                   |> set_audioContextRef (Some outputCtx)
                   |> set_currentTime t0
                   |> set_nextStartTimeRef t0 in
        let '(connectPromise, s) := fresh s in
        s |> set_sessionPromiseRef (Some connectPromise)
  end.

(** *** The callbacks of the session *)

(** [onopen].  The script processor and the mute node that are wired when
    [streamRef.current] is set keep no state of their own; the events of the
    processor are the [AudioProcess] events below. *)
Definition onopen (s : State) : State :=
  let s := s |> setConnectionState CONNECTED |> set_isConnectedRef true in
  if mounted s then
    let '(i, s) := fresh s in s |> set_videoIntervalRef (Some i)
  else s.

(** [scriptProcessor.onaudioprocess]; [pcmBlob] is [createPcmBlob(inputData)]. *)
Definition onaudioprocess (pcmBlob : Media) (s : State) : State :=
  if negb (isConnectedRef s) || null (sessionPromiseRef s) then s
  else s |> defer (AudioSendThen pcmBlob).

Definition audioSendThen (pcmBlob : Media) (callThrows : bool) (s : State) : State :=
  if negb (isConnectedRef s) then s
  else if callThrows then s |> log "Error sending audio input:"
  else s |> sendRealtimeInput pcmBlob.

(** The callback of [window.setInterval]; [ctx] says that the canvas gave a 2d
    context. *)
Definition videoInterval (ctx : bool) (readyState : N) (s : State) : State :=
  if negb (isConnectedRef s) || negb ctx || null (sessionPromiseRef s)
     || negb (readyState =? 4)
  then s
  else s |> defer ToBlobCallback.

Definition toBlobCallback (blob : bool) (s : State) : State :=
  if blob && isConnectedRef s then s |> defer BlobToBase64Done else s.

(** After [await blobToBase64(blob)]: [sessionPromiseRef.current?.then(...)]. *)
Definition blobToBase64Done (base64Data : string) (s : State) : State :=
  if null (sessionPromiseRef s) then s else s |> defer (VideoSendThen base64Data).

Definition videoSendThen (base64Data : string) (callThrows : bool) (s : State) : State :=
  if negb (isConnectedRef s) then s
  else if callThrows then s |> log "Error sending video input:"
  else s |> sendRealtimeInput {| mimeType := "image/jpeg"; data := base64Data |}.

(** [message.serverContent?.modelTurn?.parts?.[0]?.inlineData?.data] *)
Definition base64Audio (message : SDK.LiveServerMessage) : option string :=
  sc ← SDK.serverContent message;
  turn ← SDK.modelTurn sc;
  ps ← SDK.parts turn;
  p ← ps !! 0%nat;
  blob ← SDK.inlineData p;
  SDK.data blob.

(** [message.serverContent?.interrupted], as a condition. *)
Definition interrupted (message : SDK.LiveServerMessage) : bool :=
  match SDK.serverContent message with
  | Some sc => default false (SDK.interrupted sc)
  | None => false
  end.

(** The interruption branch of [onmessage]. *)
Definition handleInterruption (message : SDK.LiveServerMessage) (s : State) : State :=
  if interrupted message then
    let s := s |> set_stopped
                    (set_fold (λ source acc, acc ++ [source]) (stopped s) (sourceNodesRef s))
               |> set_sourceNodesRef ∅ in
    if null (audioContextRef s) then s else s |> set_nextStartTimeRef (currentTime s)
  else s.

(** [onmessage] up to [await decodeAudioData(...)], or to its end when the
    audio branch is not taken. *)
Definition onmessage (message : SDK.LiveServerMessage) (s : State) : State :=
  if from_option truthy false (base64Audio message) && negb (null (audioContextRef s)) then
    s |> set_nextStartTimeRef (N.max (nextStartTimeRef s) (currentTime s))
      |> defer (DecodeAudioDataDone message)
  else s |> handleInterruption message.

(** The rest of [onmessage] once [decodeAudioData] has settled. *)
Definition decodeAudioDataDone (message : SDK.LiveServerMessage) (res : option N)
    (s : State) : State :=
  match res with
  | Some d =>
      let '(source, s) := fresh s in
      s |> set_started
             (started s ++ [{| node := source; when := nextStartTimeRef s; duration := d |}])
        |> set_nextStartTimeRef (nextStartTimeRef s + d)
        |> set_sourceNodesRef ({[source]} ∪ sourceNodesRef s)
  | None => s |> log "Error decoding audio:"
  end |> handleInterruption message.

(** The ['ended'] listener of a source. *)
Definition onended (source : positive) (s : State) : State :=
  s |> set_sourceNodesRef (sourceNodesRef s ∖ {[source]}).

Definition onclose (s : State) : State :=
  s |> setConnectionState DISCONNECTED |> set_isConnectedRef false.

Definition onerror (s : State) : State :=
  s |> log "Live API Error:" |> setConnectionState ERROR |> set_isConnectedRef false
    |> setError (Some "Connection error. Please try again.").

(** *** disconnect *)

(** From the close of the input context to the end. *)
Definition disconnectRest (s : State) : State :=
  let s := match inputAudioContextRef s with
           | Some c => s |> release (Context c) |> set_inputAudioContextRef None
           | None => s
           end in
  let s := match audioContextRef s with
           | Some c => s |> release (Context c) |> set_audioContextRef None
           | None => s
           end in
  s |> stopCamera |> setConnectionState DISCONNECTED.

(** After [await sessionPromiseRef.current]: [session] is what the promise [p]
    gave, or [None] when it rejected; [callThrows] says that [session.close()]
    throws. *)
Definition disconnectAwaitDone (p : positive) (session : option bool) (s : State) : State :=
  match session with
  | Some false => s |> release (Session p)
  | Some true | None => s |> log "Error closing session"
  end |> set_sessionPromiseRef None |> disconnectRest.

(** Up to the [await]. *)
Definition disconnectBegin (s : State) : State :=
  let s := s |> set_isConnectedRef false in
  match sessionPromiseRef s with
  | Some p => s |> defer (DisconnectAwaitDone p)
  | None => s |> disconnectRest
  end.

(** [disconnect] run through its [await] in one piece. *)
Definition disconnect (session : option bool) (s : State) : State :=
  let s := s |> set_isConnectedRef false in
  match sessionPromiseRef s with
  | Some p => s |> disconnectAwaitDone p session
  | None => s |> disconnectRest
  end.

(** *** Events and steps *)

Inductive Event :=
| ClickCall (gum : option positive) (initThrows : bool) (t0 : N)
| ClickHangUp
| Unmount
| OnOpen
| OnClose
| OnError
| OnMessage (message : SDK.LiveServerMessage)
| OnEnded (source : positive)
| AudioProcess (pcmBlob : Media)
| VideoInterval (ctx : bool) (readyState : N)
| Tick (dt : N)                       (* the output clock moves on *)
| Settle (k : nat) (o : Outcome).     (* the k-th waiting task runs *)

(** The code of a task for an answer of the right kind. *)
Definition resume (t : Task) (o : Outcome) : option (State → State) :=
  match t, o with
  | AudioSendThen pcmBlob, SessionResolved callThrows => Some (audioSendThen pcmBlob callThrows)
  | AudioSendThen _, SessionRejected => Some (log "Session input error:")
  | ToBlobCallback, BlobReady blob => Some (toBlobCallback blob)
  | BlobToBase64Done, Base64Read (Some base64Data) => Some (blobToBase64Done base64Data)
  | BlobToBase64Done, Base64Read None => Some id
  | VideoSendThen base64Data, SessionResolved callThrows =>
      Some (videoSendThen base64Data callThrows)
  | VideoSendThen _, SessionRejected => Some (log "Session video error:")
  | DecodeAudioDataDone message, Decoded res => Some (decodeAudioDataDone message res)
  | DisconnectAwaitDone p, SessionResolved callThrows =>
      Some (disconnectAwaitDone p (Some callThrows))
  | DisconnectAwaitDone p, SessionRejected => Some (disconnectAwaitDone p None)
  | _, _ => None
  end.

Definition step (e : Event) (s : State) : State :=
  match e with
  | ClickCall gum initThrows t0 => connectToLiveApi gum initThrows t0 s
  | ClickHangUp => disconnectBegin s
  | Unmount => s |> set_mounted false |> disconnectBegin
  | OnOpen => onopen s
  | OnClose => onclose s
  | OnError => onerror s
  | OnMessage message => onmessage message s
  | OnEnded source => onended source s
  | AudioProcess pcmBlob => onaudioprocess pcmBlob s
  | VideoInterval ctx readyState => videoInterval ctx readyState s
  | Tick dt => s |> set_currentTime (currentTime s + dt)
  | Settle k o =>
      match pending s !! k ≫= (λ t, resume t o) with
      | Some code => s |> set_pending (delete k (pending s)) |> code
      | None => s
      end
  end.

Definition run (events : list Event) (s : State) : State :=
  foldl (λ s e, step e s) s events.

(** *** Chunks played one after the other *)

(** An inbound audio chunk as the component meets it: the clock has moved by
    [wait] since the previous event, [message] carries the audio, and the
    decoder gives a buffer of [frames] frames. *)
Record Chunk := { wait : N; message : SDK.LiveServerMessage; frames : N }.

(** The message of a chunk is one that the audio branch takes up and that does
    not interrupt. *)
Definition audible (c : Chunk) : Prop :=
  from_option truthy false (base64Audio (message c)) = true ∧ interrupted (message c) = false.

(** The chunk arrives and its decoding completes before anything else
    happens; the task of the chunk is the last one waiting. *)
Definition receive (c : Chunk) (s : State) : State :=
  s |> step (Tick (wait c))
    |> step (OnMessage (message c))
    |> step (Settle (length (pending s)) (Decoded (Some (frames c)))).

Definition receiveAll (cs : list Chunk) (s : State) : State :=
  foldl (λ s c, receive c s) s cs.

(** The sources started since [s]. *)
Definition startedSince (s s' : State) : list Started :=
  drop (length (started s)) (started s').

(** The reading of the output clock when the [i]-th chunk arrives. *)
Definition clockAt (s : State) (cs : list Chunk) (i : nat) : N :=
  currentTime s + foldr N.add 0 (wait <$> take (S i) cs).

(** Playback without any gap, as the specification words it: every start is
    the start of the chunk before plus the duration of the chunk before. *)
Definition backToBack (out : list Started) : Prop :=
  ∀ i a b, out !! i = Some a → out !! S i = Some b → when b = when a + duration a.

(** The same chunk arrives but its decoding fails. *)
Definition receiveBroken (message : SDK.LiveServerMessage) (s : State) : State :=
  s |> step (OnMessage message)
    |> step (Settle (length (pending s)) (Decoded None)).

(** The schedule that section 4.4 of the specification describes (steps 2 to
    4), to compare the handlers with: a chunk starts at the later of the cursor
    and the clock, and the cursor moves to the end of the chunk. *)
Fixpoint schedule (cursor clock : N) (id : positive) (cs : list Chunk) : list Started :=
  match cs with
  | [] => []
  | c :: cs =>
      let clock := clock + wait c in
      let start := N.max cursor clock in
      {| node := id; when := start; duration := frames c |}
        :: schedule (start + frames c) clock (Pos.succ id) cs
  end.

(** *** Notions used in the statements *)

(** The step handles the interruption flag of a message: the message arrives
    and its audio branch is not taken, or the decoding of its audio has
    settled. *)
Definition handlesInterruption (e : Event) (s : State) : bool :=
  match e with
  | OnMessage message =>
      interrupted message
      && negb (from_option truthy false (base64Audio message) && negb (null (audioContextRef s)))
  | Settle k (Decoded _) =>
      match pending s !! k with
      | Some (DecodeAudioDataDone message) => interrupted message
      | _ => false
      end
  | _ => false
  end.


Definition samePlayback (s s' : State) : Prop :=
  nextStartTimeRef s' = nextStartTimeRef s ∧ currentTime s' = currentTime s ∧
  started s' = started s.

(** A new call makes a new output context with a clock of its own. *)
Definition newCall (e : Event) : bool :=
  match e with ClickCall _ _ _ => true | _ => false end.

(** The button that starts a call is shown in these states (the JSX of the
    component). *)
Definition callButtonShown (s : State) : bool :=
  bool_decide (connectionState s = DISCONNECTED) || bool_decide (connectionState s = ERROR).

(** Everything [disconnect] has to hand back in [s] was handed back by [s']. *)
Definition handedBack (s s' : State) : Prop :=
  (∀ m, streamRef s = Some m → Stream m ∈ released s') ∧
  (∀ c, inputAudioContextRef s = Some c → Context c ∈ released s') ∧
  (∀ c, audioContextRef s = Some c → Context c ∈ released s') ∧
  (∀ i, videoIntervalRef s = Some i → Interval i ∈ released s').

Definition allReleased (s : State) : Prop :=
  sessionPromiseRef s = None ∧ inputAudioContextRef s = None ∧ audioContextRef s = None ∧
  streamRef s = None ∧ videoIntervalRef s = None.

(** *** Scenarios *)

Definition audioMessage (base64 : string) (interrupt : option bool) : SDK.LiveServerMessage :=
  {| SDK.serverContent := Some
       {| SDK.modelTurn := Some
            {| SDK.parts := Some
                 [ {| SDK.inlineData := Some {| SDK.data := Some base64; SDK.mimeType := None |} |} ] |};
          SDK.interrupted := interrupt |} |}.

Definition interruptionMessage : SDK.LiveServerMessage :=
  {| SDK.serverContent := Some {| SDK.modelTurn := None; SDK.interrupted := Some true |} |}.

(** A call is up: camera granted, contexts running, session open. *)
Definition connected : State :=
  run [ClickCall (Some 7%positive) false 0; OnOpen] (initial "key").

(** A chunk is being decoded when the session closes. *)
Definition closedWhileDecoding : State :=
  run [OnMessage (audioMessage "UklGRg==" None); OnClose] connected.


(** Two chunks, the second of which arrives long after the first has ended. *)
Definition stalled : list Chunk :=
  [ {| wait := 0; message := audioMessage "UklGRg==" None; frames := 10 |};
    {| wait := 50; message := audioMessage "UklGRg==" None; frames := 10 |} ].


(** A chunk is being decoded and the output clock has run ahead of the
    cursor. *)
Definition decodingLate : State :=
  run [OnMessage (audioMessage "UklGRg==" None); Tick 5] connected.

(** A source is scheduled and the clock has moved on. *)
Definition playing : State :=
  run [OnMessage (audioMessage "UklGRg==" None); Settle 0 (Decoded (Some 10)); Tick 3] connected.

(** The parts of the model turn of a message, none when a field is missing. *)
Definition partsOf (message : SDK.LiveServerMessage) : list SDK.Part :=
  default [] (sc ← SDK.serverContent message; turn ← SDK.modelTurn sc; SDK.parts turn).

(** The audio data of the first of these parts, if there is one. *)
Definition firstPartData (message : SDK.LiveServerMessage) : option string :=
  p ← head (partsOf message); blob ← SDK.inlineData p; SDK.data blob.

Definition noAudio : SDK.Part := {| SDK.inlineData := None |}.

Definition audioPart (base64 : string) : SDK.Part :=
  {| SDK.inlineData := Some {| SDK.data := Some base64; SDK.mimeType := Some "audio/pcm" |} |}.

(** A message whose audio sits in the second part. *)
Definition audioInSecondPart : SDK.LiveServerMessage :=
  {| SDK.serverContent := Some
       {| SDK.modelTurn := Some {| SDK.parts := Some [noAudio; audioPart "UklGRg=="] |};
          SDK.interrupted := None |} |}.

(** The scenarios of section 8 of the specification: three chunks of one
    second played in a row and each ended; two chunks, then an interruption. *)
Definition oneSecond : Chunk :=
  {| wait := 0; message := audioMessage "UklGRg==" None; frames := 24000 |}.

Definition threeSeconds : State :=
  run [OnEnded 5; OnEnded 6; OnEnded 7] (receiveAll [oneSecond; oneSecond; oneSecond] connected).

Definition interruptedAfterTwo : State :=
  run [Tick 100; OnMessage interruptionMessage] (receiveAll [oneSecond; oneSecond] connected).

End LiveView.

(** * The PCM encoder (utils/audio-utils.ts) *)

Module AudioUtils.

(** [createPcmBlob] of utils/audio-utils.ts is not among the sources; the
    definitions of this module are modelled from section 4.3 of the
    specification.

    A sample is a rational number: every finite 32-bit float is one, and its
    products by 0x8000 and by 0x7FFF are exact in double precision.  NaN and
    the infinities are left out. *)

(** Modelled from the spec: the clamping of a sample of [createPcmBlob] to
    [-1, 1]. *)
Definition clamp (x : Q) : Q := Qmax (-1) (Qmin 1 x).

(** Modelled from the spec: the scaling of [createPcmBlob], negative values
    by 0x8000 and the others by 0x7FFF. *)
Definition scale (x : Q) : Q :=
  let s := clamp x in
  if Qlt_le_dec s 0 then (s * 32768)%Q else (s * 32767)%Q.

(** The integer part, towards zero. *)
Definition truncate (x : Q) : Z := (Qnum x ÷ Z.pos (Qden x))%Z.

(** The store of an integer into an [Int16Array] wraps. *)
Definition toInt16 (z : Z) : Z := ((z + 32768) mod 65536 - 32768)%Z.

(** Modelled from the spec: the 16-bit signed integer that [createPcmBlob]
    makes of a sample.  The specification does not say how the fraction goes;
    it is dropped here, as a store into an [Int16Array] drops it. *)
Definition sample (x : Q) : Z := toInt16 (truncate (scale x)).

(** Modelled from the spec: the packing of [createPcmBlob], the two bytes of a
    16-bit integer with the low byte first. *)
Definition littleEndian (z : Z) : list Z := [z mod 256; (z / 256) mod 256]%Z.

Record PcmBlob := { bytes : list Z; rate : N }.

(** Modelled from the spec: [createPcmBlob] of utils/audio-utils.ts, the bytes
    of the encoded samples tagged as 16 kHz PCM. *)
Definition createPcmBlob (data : list Q) : PcmBlob :=
  {| bytes := concat (littleEndian <$> (sample <$> data)); rate := 16000 |}.

(** The 16-bit integers that a little-endian buffer holds. *)
Fixpoint readInt16 (bs : list Z) : list Z :=
  match bs with
  | lo :: hi :: rest =>
      (let u := lo + 256 * hi in if u <? 32768 then u else u - 65536)%Z :: readInt16 rest
  | _ => []
  end.

(** A reference conversion to compare with: the same scaling, rounded to the
    nearest integer. *)
Definition reference (x : Q) : Z := Qfloor (scale x + (1 # 2))%Q.

(** A buffer of the capture stage. *)
Definition someSamples : list Q := [0; 1; -1; 1 # 2; -(1 # 3); 3 # 4]%Q.

End AudioUtils.

(** * The text chat (components/DeepChat.tsx) *)

Module DeepChat.

(** *** Data *)

(** [Message] of types.ts; [timestamp] is the time of the [Date] in
    milliseconds. *)
Inductive Role := user | model.

Record Message := {
  id : string;
  role : Role;
  text : string;
  timestamp : N;
  isThinking : option bool
}.

(** The request of [ai.models.generateContent]: each content is
    [{ role, parts: [{ text }] }]. *)
Module GenAI.

Record Content := { role : Role; parts : list string }.

Record Request := { model : string; contents : list Content; thinkingBudget : N }.

End GenAI.

(** What the awaited request gives: a response with its [text], which may be
    missing, or an exception. *)
Inductive Response := Answer (text : option string) | Failure.

(** The state of the component, the key it is given, and what it has done:
    the requests issued and the console. *)
Record State := {
  messages : list Message;
  input : string;
  isLoading : bool;
  apiKey : string;
  requests : list GenAI.Request;
  console : list string
}.

Definition welcome : Message :=
  {| id := "welcome"; role := model;
     text := "Hi love! I'm here if you need deep advice or just want to chat via text. What's on your mind?";
     timestamp := 0; isThinking := None |}.

Definition initial (key : string) : State :=
  {| messages := [welcome]; input := ""; isLoading := false; apiKey := key;
     requests := []; console := [] |}.

Definition setMessages (v : list Message) (s : State) : State :=
  {| messages := v; input := input s; isLoading := isLoading s; apiKey := apiKey s;
     requests := requests s; console := console s |}.

Definition setInput (v : string) (s : State) : State :=
  {| messages := messages s; input := v; isLoading := isLoading s; apiKey := apiKey s;
     requests := requests s; console := console s |}.

Definition setIsLoading (v : bool) (s : State) : State :=
  {| messages := messages s; input := input s; isLoading := v; apiKey := apiKey s;
     requests := requests s; console := console s |}.

Definition generateContent (r : GenAI.Request) (s : State) : State :=
  {| messages := messages s; input := input s; isLoading := isLoading s; apiKey := apiKey s;
     requests := requests s ++ [r]; console := console s |}.

Definition log (msg : string) (s : State) : State :=
  {| messages := messages s; input := input s; isLoading := isLoading s; apiKey := apiKey s;
     requests := requests s; console := console s ++ [msg] |}.

(** *** String.prototype.trim

    A character is a code unit below 256.  The white space of JavaScript in
    that range: tab, line feed, vertical tab, form feed, carriage return,
    space and the no-break space. *)
Definition isWhiteSpace (c : ascii) : bool :=
  let n := N_of_ascii c in ((9 <=? n) && (n <=? 13)) || (n =? 32) || (n =? 160).

Fixpoint trimStart (x : string) : string :=
  match x with
  | String c rest => if isWhiteSpace c then trimStart rest else x
  | EmptyString => EmptyString
  end.

Definition trimEnd (x : string) : string := String.rev (trimStart (String.rev x)).

Definition trim (x : string) : string := trimEnd (trimStart x).

(** The input has nothing but white space in it (or nothing at all). *)
Fixpoint blank (x : string) : bool :=
  match x with
  | String c rest => isWhiteSpace c && blank rest
  | EmptyString => true
  end.

(** *** handleSend *)

(** [xs.slice(-n)] *)
Definition slice_last {A} (n : nat) (xs : list A) : list A :=
  drop (length xs - n) xs.

Definition systemContext : string :=
  "System Context: You are Maya, a virtual girlfriend. Provide thoughtful, emotionally intelligent advice.".

Definition fallbackText : string :=
  "I'm thinking deeply about that, but I couldn't find the right words.".

Definition errorText : string :=
  "I'm having trouble connecting to my thoughts right now. Try again?".

Definition turn (m : Message) : GenAI.Content :=
  {| GenAI.role := role m; GenAI.parts := [text m] |}.

(** The request that [handleSend] builds from the [messages] and the [input]
    of the render it belongs to. *)
Definition request (messages : list Message) (input : string) : GenAI.Request :=
  {| GenAI.model := "gemini-3-pro-preview";
     GenAI.contents :=
       {| GenAI.role := user; GenAI.parts := [systemContext] |}
         :: (turn <$> slice_last 5 messages)
         ++ [{| GenAI.role := user; GenAI.parts := [input] |}];
     GenAI.thinkingBudget := 1024 |}.

(** [handleSend] up to [await ai.models.generateContent(...)]; [now] is
    [Date.now()]. *)
Definition handleSend (now : N) (s : State) : State :=
  if negb (truthy (trim (input s))) || negb (truthy (apiKey s)) then s
  else
    let userMsg := {| id := pretty now; role := user; text := input s;
                      timestamp := now; isThinking := None |} in
    s |> setMessages (messages s ++ [userMsg])
      |> setInput ""
      |> setIsLoading true
      |> generateContent (request (messages s) (input s)).

(** The rest of [handleSend] once the request has settled. *)
Definition handleSendDone (now : N) (r : Response) (s : State) : State :=
  match r with
  | Answer response =>
      let text := match response with
                  | Some t => if truthy t then t else fallbackText
                  | None => fallbackText
                  end in
      let modelMsg := {| id := pretty (now + 1); role := model; text := text;
                         timestamp := now; isThinking := Some true |} in
      s |> setMessages (messages s ++ [modelMsg])
  | Failure =>
      let errorMsg := {| id := pretty now; role := model; text := errorText;
                         timestamp := now; isThinking := None |} in
      s |> log "err" |> setMessages (messages s ++ [errorMsg])
  end |> setIsLoading false.

(** *** Scenarios *)

(** The user has typed a single space. *)
Definition spaceTyped : State := setInput " " (initial "key").

(** Six turns were exchanged and a seventh is typed. *)
Definition longTalk : State :=
  let say (n : N) (r : Role) (t : string) :=
    {| id := pretty n; role := r; text := t; timestamp := n; isThinking := None |} in
  initial "key"
    |> setMessages [welcome; say 1 user "a"; say 2 model "b"; say 3 user "c";
                    say 4 model "d"; say 5 user "e"; say 6 model "f"]
    |> setInput "g".

End DeepChat.

(** * More of the live call: what is shown, the data URL, the pipelines *)

Module LiveViewMore.
Import LiveView.

(** *** blobToBase64 *)

Fixpoint contains (sep : ascii) (x : string) : bool :=
  match x with
  | EmptyString => false
  | String c rest => Ascii.eqb c sep || contains sep rest
  end.

(** [x.split(sep)] for a separator of one character: the pieces between the
    separators, one piece when there is no separator. *)
Fixpoint split (sep : ascii) (x : string) : list string :=
  match x with
  | EmptyString => [EmptyString]
  | String c rest =>
      if Ascii.eqb c sep then EmptyString :: split sep rest
      else match split sep rest with
           | piece :: pieces => String c piece :: pieces
           | [] => [String c EmptyString]
           end
  end.

(** What the promise of [blobToBase64] gives for the [result] of the reader:
    [base64String.split(',')[1]], which is [undefined] when there is no
    second piece. *)
Definition blobToBase64 (result : string) : option string :=
  split "," result !! 1%nat.

(** *** What the component shows *)

Inductive Button :=
| CallMaya (disabled : bool) (spinner : bool)   (* 'Call Maya', or 'Connecting...' with the spinner *)
| HangUp.

(** The button of the controls. *)
Definition button (s : State) : Button :=
  if bool_decide (connectionState s = DISCONNECTED) || bool_decide (connectionState s = ERROR)
  then CallMaya (bool_decide (connectionState s = CONNECTING))
                (bool_decide (connectionState s = CONNECTING))
  else HangUp.

(** The value of a member of the string enum. *)
Definition enumValue (c : ConnectionState) : string :=
  match c with
  | DISCONNECTED => "DISCONNECTED"
  | CONNECTING => "CONNECTING"
  | CONNECTED => "CONNECTED"
  | ERROR => "ERROR"
  end.

(** The badge over the video: its text and whether it is the green one. *)
Definition badge (s : State) : string * bool :=
  (if bool_decide (connectionState s = CONNECTED) then "Maya Connected"
   else enumValue (connectionState s),
   bool_decide (connectionState s = CONNECTED)).

(** The box under the controls, [{error && ...}]. *)
Definition errorBox (s : State) : option string :=
  match error s with
  | Some msg => if truthy msg then Some msg else None
  | None => None
  end.

(** [isActive] of the visualizer. *)
Definition visualizerActive (s : State) : bool :=
  bool_decide (connectionState s = CONNECTED).

(** The click that the button shown in [s] stands for. *)
Definition click (gum : option positive) (initThrows : bool) (t0 : N) (s : State) : Event :=
  match button s with
  | CallMaya _ _ => ClickCall gum initThrows t0
  | HangUp => ClickHangUp
  end.

(** *** Kinds of events *)

(** What can happen without any session: the clicks and the clock. *)
Definition userAction (e : Event) : bool :=
  match e with
  | ClickCall _ _ _ | ClickHangUp | Tick _ => true
  | _ => false
  end.

Definition isOnOpen (e : Event) : bool :=
  match e with OnOpen => true | _ => false end.

(** The session goes away. *)
Definition closing (e : Event) : bool :=
  match e with OnClose | OnError => true | _ => false end.

(** The session opens or goes away. *)
Definition sessionEvent (e : Event) : bool := isOnOpen e || closing e.

(** No event of the run makes a new call or handles an interruption. *)
Fixpoint calm (events : list Event) (s : State) : bool :=
  match events with
  | [] => true
  | e :: events =>
      negb (newCall e) && negb (handlesInterruption e s) && calm events (step e s)
  end.

(** The sources follow one another without overlap from [cursor] on: each
    starts at the end of the one before, or later. *)
Fixpoint inSequence (cursor : N) (out : list Started) : Prop :=
  match out with
  | [] => True
  | a :: out => cursor ≤ when a ∧ inSequence (when a + duration a) out
  end.

(** The end of the last of them. *)
Definition endOf (cursor : N) (out : list Started) : N :=
  from_option (λ a, when a + duration a) cursor (last out).

(** The audio context refs and the session promise are held together. *)
Definition heldTogether (s : State) : Prop :=
  (is_Some (inputAudioContextRef s) ↔ is_Some (sessionPromiseRef s)) ∧
  (is_Some (audioContextRef s) ↔ is_Some (sessionPromiseRef s)).

(** *** The two outbound pipelines, each stage run in its turn *)

(** An audio buffer: [onaudioprocess], the events of [gap], then the [.then]
    callback with the answer [o] of the session promise. *)
Definition audioBuffer (pcmBlob : Media) (gap : list Event) (o : Outcome) (s : State) : State :=
  s |> step (AudioProcess pcmBlob)
    |> run gap
    |> step (Settle (length (pending s)) o).

(** A video frame: the tick of the interval, the callback of [toBlob], the
    end of [blobToBase64] and the [.then] callback, with the events of the
    gaps in between. *)
Definition videoFrame (base64Data : string) (gap1 gap2 gap3 : list Event) (s : State) : State :=
  s |> step (VideoInterval true 4)
    |> run gap1
    |> step (Settle (length (pending s)) (BlobReady true))
    |> run gap2
    |> step (Settle (length (pending s)) (Base64Read (Some base64Data)))
    |> run gap3
    |> step (Settle (length (pending s)) (SessionResolved false)).

(** *** Scenarios *)

(** Three chunks arrive before any is decoded; the decodings settle in
    another order, while the clock runs. *)
Definition outOfOrder : list Event :=
  [OnMessage (audioMessage "UklGRg==" None); Tick 7;
   OnMessage (audioMessage "UklGRg==" None);
   OnMessage (audioMessage "UklGRg==" None);
   Settle 2 (Decoded (Some 10)); Tick 30;
   Settle 0 (Decoded (Some 20)); Settle 0 (Decoded None)].

(** The camera was granted but the client could not be set up. *)
Definition initFailed : State :=
  step (ClickCall (Some 7%positive) true 0) (initial "key").

End LiveViewMore.

(** * More of the text chat: whole exchanges *)

Module DeepChatTalk.
Import DeepChat.

(** The user types [typed] and sends at [sentAt]; the request settles with
    [response] at [settledAt]. *)
Record Exchange := {
  typed : string;
  sentAt : N;
  response : Response;
  settledAt : N
}.

(** One exchange, with nothing in between; the rest of [handleSend] runs only
    when the send went past its guard. *)
Definition exchange (x : Exchange) (s : State) : State :=
  let s := s |> setInput (typed x) in
  if negb (truthy (trim (input s))) || negb (truthy (apiKey s)) then s
  else s |> handleSend (sentAt x) |> handleSendDone (settledAt x) (response x).

Definition talk (xs : list Exchange) (s : State) : State :=
  foldl (λ s x, exchange x s) s xs.

Definition other (r : Role) : Role :=
  match r with user => model | model => user end.

(** The roles take turns, [first] speaking first. *)
Fixpoint alternate (first : Role) (rs : list Role) : Prop :=
  match rs with
  | [] => True
  | r :: rs => r = first ∧ alternate (other first) rs
  end.

(** The roles of the contents of a request take turns, and the user speaks
    first and last. *)
Definition wellFormed (r : GenAI.Request) : Prop :=
  alternate user (GenAI.role <$> GenAI.contents r) ∧
  last (GenAI.role <$> GenAI.contents r) = Some user.

(** *** The field and the button *)

(** [disabled] of the send button. *)
Definition sendDisabled (s : State) : bool :=
  isLoading s || negb (truthy (trim (input s))).

(** A click on the send button; a disabled button takes no click. *)
Definition clickSend (now : N) (s : State) : State :=
  if sendDisabled s then s else handleSend now s.

(** [onKeyDown] of the field: [e.key === 'Enter' && handleSend()]. *)
Definition keyDown (key : string) (now : N) (s : State) : State :=
  if bool_decide (key = "Enter") then handleSend now s else s.

(** A request is in flight and the user has typed again. *)
Definition typedWhileLoading : State :=
  initial "key" |> setInput "a" |> handleSend 10 |> setInput "b".

(** *** Requests in flight *)

(** The chat with the count of the requests that have settled: every call of
    [generateContent] is awaited by the [handleSend] that made it, and the
    rest of that [handleSend] runs when it settles. *)
Record Chat := { view : State; settled : nat }.

(** The requests that were issued and have not settled. *)
Definition inFlight (c : Chat) : nat := length (requests (view c)) - settled c.

Inductive ChatEvent :=
| TypeText (text : string)                 (* [onChange] of the field *)
| KeyDown (key : string) (now : N)
| ClickSend (now : N)
| Settled (now : N) (r : Response).        (* a request in flight settles *)

Definition chatStep (e : ChatEvent) (c : Chat) : Chat :=
  match e with
  | TypeText text => {| view := setInput text (view c); settled := settled c |}
  | KeyDown key now => {| view := keyDown key now (view c); settled := settled c |}
  | ClickSend now => {| view := clickSend now (view c); settled := settled c |}
  | Settled now r =>
      if bool_decide (0 < inFlight c)%nat
      then {| view := handleSendDone now r (view c); settled := S (settled c) |}
      else c
  end.

Definition chatRun (events : list ChatEvent) (c : Chat) : Chat :=
  foldl (λ c e, chatStep e c) c events.

Definition chatStart (key : string) : Chat := {| view := initial key; settled := 0 |}.

Definition someTalk : list Exchange :=
  [ {| typed := "a"; sentAt := 10; response := Answer (Some "b"); settledAt := 20 |};
    {| typed := "  "; sentAt := 30; response := Failure; settledAt := 40 |};
    {| typed := "c"; sentAt := 50; response := Failure; settledAt := 60 |};
    {| typed := "d"; sentAt := 70; response := Answer None; settledAt := 80 |};
    {| typed := "e"; sentAt := 90; response := Answer (Some "f"); settledAt := 95 |} ].

End DeepChatTalk.

(** * The application (App.tsx) *)

Module App.

Inductive AppMode := LIVE_VIDEO | DEEP_THOUGHT.

(** The state of [App]; [apiKey] is [process.env.API_KEY || ''] and
    [showApiKeyError] starts as [!apiKey] and is never set. *)
Record State := { mode : AppMode; apiKey : string; showApiKeyError : bool }.

(** [env] is [process.env.API_KEY], [None] when it is not set. *)
Definition initial (env : option string) : State :=
  let apiKey := match env with
                | Some key => if truthy key then key else ""
                | None => ""
                end in
  {| mode := LIVE_VIDEO; apiKey := apiKey; showApiKeyError := negb (truthy apiKey) |}.

Definition setMode (m : AppMode) (s : State) : State :=
  {| mode := m; apiKey := apiKey s; showApiKeyError := showApiKeyError s |}.

(** What is rendered: the error screen, or the navigation with one of the two
    views, which is given the key. *)
Inductive Screen :=
| ApiKeyMissing
| TalkToMaya (apiKey : string)      (* <LiveView apiKey={apiKey} /> *)
| DeepAdvice (apiKey : string).     (* <DeepChat apiKey={apiKey} /> *)

Definition render (s : State) : Screen :=
  if showApiKeyError s then ApiKeyMissing
  else match mode s with
       | LIVE_VIDEO => TalkToMaya (apiKey s)
       | DEEP_THOUGHT => DeepAdvice (apiKey s)
       end.

(** The buttons of the navigation exist only on the second screen. *)
Definition clickMode (m : AppMode) (s : State) : State :=
  match render s with
  | ApiKeyMissing => s
  | _ => setMode m s
  end.

End App.

(** * Facts about the live-call pipeline *)

Module LiveViewProofs.
Import LiveView.

(** The fields that a handler leaves alone are read off by computation once
    the tests of the handler are decided. *)
Ltac fields := cbn -[N.max N.add delete union singleton difference set_fold] in *.

Ltac decide_tests :=
  repeat (fields; try done;
          match goal with
          | |- context [if ?b then _ else _] => destruct b eqn:?
          | |- context [match ?x with _ => _ end] => destruct x eqn:?
          end).

Lemma sent_disconnectRest s : sent (disconnectRest s) = sent s.
Proof. unfold disconnectRest, stopCamera. by decide_tests. Qed.

Lemma sent_handleInterruption m s : sent (handleInterruption m s) = sent s.
Proof. unfold handleInterruption. by decide_tests. Qed.

Lemma sent_connectToLiveApi gum thr t0 s : sent (connectToLiveApi gum thr t0 s) = sent s.
Proof.
  unfold connectToLiveApi, startCamera.
  by destruct (truthy (apiKey s)), (streamRef s), gum, thr.
Qed.

Lemma sent_disconnectAwaitDone p session s : sent (disconnectAwaitDone p session s) = sent s.
Proof.
  unfold disconnectAwaitDone. rewrite sent_disconnectRest. by destruct session as [[]|].
Qed.

Lemma sent_disconnectBegin s : sent (disconnectBegin s) = sent s.
Proof.
  unfold disconnectBegin. simpl. case_match; [done | by rewrite sent_disconnectRest].
Qed.

Lemma sent_decodeAudioDataDone m res s : sent (decodeAudioDataDone m res s) = sent s.
Proof. unfold decodeAudioDataDone. rewrite sent_handleInterruption. by destruct res. Qed.

(** A task that runs while the flag is down sends nothing. *)
Lemma resume_guarded t o code s :
  resume t o = Some code → isConnectedRef s = false → sent (code s) = sent s.
Proof.
  intros Hcode Hflag.
  destruct t, o as [thr| |blob|[b64|]|res]; simpl in Hcode; simplify_eq; try done.
  - unfold audioSendThen. by rewrite Hflag.
  - unfold toBlobCallback. by rewrite Hflag, andb_false_r.
  - unfold blobToBase64Done. by case_match.
  - unfold videoSendThen. by rewrite Hflag.
  - apply sent_decodeAudioDataDone.
  - apply sent_disconnectAwaitDone.
  - apply sent_disconnectAwaitDone.
Qed.

Lemma send_guarded s e : isConnectedRef s = false → sent (step e s) = sent s.
Proof.
  intros Hflag. destruct e; simpl.
  - apply sent_connectToLiveApi.
  - apply sent_disconnectBegin.
  - by rewrite sent_disconnectBegin.
  - unfold onopen. by decide_tests.
  - done.
  - done.
  - unfold onmessage. case_match; [done | by rewrite sent_handleInterruption].
  - done.
  - unfold onaudioprocess. by rewrite Hflag.
  - unfold videoInterval. by rewrite Hflag.
  - done.
  - destruct (pending s !! k ≫= λ t, resume t o) as [code|] eqn:Hk; [|done].
    apply bind_Some in Hk as (t & _ & Hcode).
    by rewrite (resume_guarded _ _ _ _ Hcode).
Qed.

(** ** Guards on sending and on scheduling *)

Lemma step_settle k o t code s :
  pending s !! k = Some t → resume t o = Some code →
  step (Settle k o) s = code (set_pending (delete k (pending s)) s).
Proof. intros Hk Hcode. simpl. by rewrite Hk; simpl; rewrite Hcode. Qed.

Lemma started_handleInterruption m s : started (handleInterruption m s) = started s.
Proof. unfold handleInterruption. by decide_tests. Qed.

Lemma pending_handleInterruption m s : pending (handleInterruption m s) = pending s.
Proof. unfold handleInterruption. by decide_tests. Qed.

(** C1, as amended.  A send that runs while the guard flag is down sends
    nothing, whatever the event: the flag is read when the send runs.  An
    inbound chunk is not guarded by the flag: a message is taken up for
    decoding whenever it carries audio and the output context is there, it is
    left alone when the context is gone, and once the decoding has settled the
    source is started without any further test. *)
Theorem sends_guarded_chunks_gated (s : State) :
  (∀ e, isConnectedRef s = false → sent (step e s) = sent s) ∧
  (∀ message, audioContextRef s = None →
     pending (step (OnMessage message) s) = pending s ∧
     started (step (OnMessage message) s) = started s) ∧
  (∀ message, audioContextRef s ≠ None →
     from_option truthy false (base64Audio message) = true →
     pending (step (OnMessage message) s) = pending s ++ [DecodeAudioDataDone message]) ∧
  (∀ k message d, pending s !! k = Some (DecodeAudioDataDone message) →
     started (step (Settle k (Decoded (Some d))) s)
     = started s ++ [{| node := nextId s; when := nextStartTimeRef s; duration := d |}]).
Proof.
  split_and!.
  - intros e. apply send_guarded.
  - intros m Hctx. simpl. unfold onmessage. rewrite Hctx, andb_false_r.
    by rewrite pending_handleInterruption, started_handleInterruption.
  - intros m Hctx Haudio. simpl. unfold onmessage. rewrite Haudio.
    by destruct (audioContextRef s).
  - intros k m d Hk. erewrite step_settle by done.
    unfold decodeAudioDataDone. by rewrite started_handleInterruption.
Qed.

Lemma sends_guarded_chunks_gated_witness :
  let s := defer (AudioSendThen {| mimeType := "audio/pcm;rate=16000"; data := "AAA=" |})
             (onclose connected) in
  isConnectedRef s = false ∧ sent (step (Settle 0 (SessionResolved false)) s) = sent s.
Proof.
  intros s. split; [reflexivity |].
  apply (proj1 (sends_guarded_chunks_gated s)). reflexivity.
Defined.

(** C1, as stated, fails for inbound chunks: the session closes while a chunk
    is being decoded; the connection state is [DISCONNECTED] and the flag is
    down when the decoding settles, and the source is started all the same. *)
Lemma chunk_scheduled_after_close :
  connectionState closedWhileDecoding = DISCONNECTED ∧
  isConnectedRef closedWhileDecoding = false ∧
  started (step (Settle 0 (Decoded (Some 24000))) closedWhileDecoding)
  = started closedWhileDecoding ++ [{| node := 5; when := 0; duration := 24000 |}].
Proof. by vm_compute. Qed.

(** ** Chunks played one after the other *)

Lemma receive_audible c s :
  audioContextRef s ≠ None → audible c →
  receive c s
  = s |> set_currentTime (currentTime s + wait c)
      |> set_nextStartTimeRef
           (N.max (nextStartTimeRef s) (currentTime s + wait c) + frames c)
      |> set_nextId (Pos.succ (nextId s))
      |> set_started
           (started s ++ [{| node := nextId s;
                             when := N.max (nextStartTimeRef s) (currentTime s + wait c);
                             duration := frames c |}])
      |> set_sourceNodesRef ({[nextId s]} ∪ sourceNodesRef s).
Proof.
  intros Hctx [Haudio Hint]. unfold receive.
  assert (Hmsg : ∀ s', audioContextRef s' ≠ None →
            step (OnMessage (message c)) s'
            = s' |> set_nextStartTimeRef (N.max (nextStartTimeRef s') (currentTime s'))
                 |> defer (DecodeAudioDataDone (message c))).
  { intros s' Hs'. simpl. unfold onmessage. rewrite Haudio. by destruct (audioContextRef s'). }
  rewrite Hmsg by done.
  erewrite step_settle; [| by apply list_lookup_middle | done].
  unfold decodeAudioDataDone, handleInterruption. rewrite Hint.
  cbn -[N.max N.add delete union singleton].
  by rewrite delete_middle, app_nil_r.
Qed.

Lemma receiveAll_schedule cs s :
  audioContextRef s ≠ None → Forall audible cs →
  started (receiveAll cs s)
  = started s ++ schedule (nextStartTimeRef s) (currentTime s) (nextId s) cs ∧
  nextStartTimeRef (receiveAll cs s)
  = from_option (λ a, when a + duration a) (nextStartTimeRef s)
      (last (schedule (nextStartTimeRef s) (currentTime s) (nextId s) cs)).
Proof.
  revert s. induction cs as [|c cs IH]; intros s Hctx Hall.
  - simpl. by rewrite app_nil_r.
  - apply Forall_cons in Hall as [Hc Hall]. simpl.
    destruct (IH (receive c s)) as [IH1 IH2]; [by rewrite receive_audible | done |].
    rewrite IH1, IH2, receive_audible by done. simpl. split.
    + by rewrite <- app_assoc.
    + destruct (schedule _ _ (Pos.succ (nextId s)) cs) as [|a l]; [done|].
      rewrite last_cons_cons.
      destruct (last (a :: l)) eqn:Hlast; [done | by apply last_None in Hlast].
Qed.

Lemma schedule_length cursor clock id cs : length (schedule cursor clock id cs) = length cs.
Proof. revert cursor clock id. induction cs; intros; simpl; [done | by rewrite IHcs]. Qed.

Lemma schedule_duration cursor clock id cs i c a :
  cs !! i = Some c → schedule cursor clock id cs !! i = Some a → duration a = frames c.
Proof.
  revert cursor clock id i. induction cs as [|c' cs IH]; intros cursor clock id [|i] Hc Ha;
    simplify_eq/=; [done | eauto].
Qed.

Lemma schedule_next cursor clock id cs i a b :
  schedule cursor clock id cs !! i = Some a →
  schedule cursor clock id cs !! S i = Some b →
  when b = N.max (when a + duration a) (clock + foldr N.add 0 (wait <$> take (S (S i)) cs)).
Proof.
  revert cursor clock id i. induction cs as [|c cs IH]; intros cursor clock id i Ha Hb; [done|].
  destruct i as [|i].
  - destruct cs as [|c' cs]; simplify_eq/=. f_equal. destruct cs; simpl; lia.
  - simpl in Ha, Hb. rewrite (IH _ _ _ _ Ha Hb). f_equal.
    change (take (S (S (S i))) (c :: cs)) with (c :: take (S (S i)) cs).
    rewrite fmap_cons. simpl. lia.
Qed.

(** C2, as amended.  Chunks that arrive one after the other while the output
    context is there (as it is during a call), each decoded before the next
    arrives and none interrupting: each chunk starts at the later of the cursor and the clock
    read when it arrives; the cursor, which is the end of the chunk before,
    moves on by the duration; the starts never go back; and a chunk starts
    exactly at the end of the chunk before when it arrives no later than that
    end, and at the clock otherwise. *)
Theorem chunks_scheduled (s : State) (cs : list Chunk) :
  audioContextRef s ≠ None → Forall audible cs →
  let out := startedSince s (receiveAll cs s) in
  length out = length cs ∧
  (∀ i c a, cs !! i = Some c → out !! i = Some a → duration a = frames c) ∧
  (∀ a, out !! 0%nat = Some a → when a = N.max (nextStartTimeRef s) (clockAt s cs 0)) ∧
  (∀ i a b, out !! i = Some a → out !! S i = Some b →
     when b = N.max (when a + duration a) (clockAt s cs (S i)) ∧
     when a ≤ when b ∧
     (clockAt s cs (S i) ≤ when a + duration a → when b = when a + duration a)) ∧
  nextStartTimeRef (receiveAll cs s)
  = from_option (λ a, when a + duration a) (nextStartTimeRef s) (last out).
Proof.
  intros Hctx Hall out.
  destruct (receiveAll_schedule cs s Hctx Hall) as [Hstarted Hcursor].
  assert (Hout : out = schedule (nextStartTimeRef s) (currentTime s) (nextId s) cs).
  { unfold out, startedSince. by rewrite Hstarted, drop_app_length. }
  rewrite Hout. split_and!.
  - apply schedule_length.
  - intros i c a. apply schedule_duration.
  - intros a Ha. unfold clockAt. destruct cs as [|c cs]; simplify_eq/=.
    f_equal. destruct cs; simpl; lia.
  - intros i a b Ha Hb. pose proof (schedule_next _ _ _ _ _ _ _ Ha Hb) as Hnext.
    unfold clockAt. rewrite Hnext. split_and!; [done | lia | lia].
  - done.
Qed.

Lemma chunks_scheduled_witness :
  audioContextRef connected ≠ None ∧ Forall audible stalled ∧
  when <$> startedSince connected (receiveAll stalled connected) = [0; 50] ∧
  nextStartTimeRef (receiveAll stalled connected) = 60.
Proof.
  assert (H1 : audioContextRef connected ≠ None) by done.
  assert (H2 : Forall audible stalled) by (by repeat constructor).
  split_and!; [done | done | by vm_compute |].
  destruct (chunks_scheduled connected stalled H1 H2) as (_ & _ & _ & _ & ->).
  by vm_compute.
Defined.

(** C2, as stated, fails: the second of two chunks arrives when the first has
    long ended; it starts at the clock, 50, and not at the end of the first, 10. *)
Lemma stalled_not_back_to_back :
  connectionState connected = CONNECTED ∧ isConnectedRef connected = true ∧
  audioContextRef connected ≠ None ∧ Forall audible stalled ∧
  ¬ backToBack (startedSince connected (receiveAll stalled connected)).
Proof.
  split_and!; [done | done | done | by repeat constructor |].
  intros Hgapless.
  specialize (Hgapless 0%nat {| node := 5; when := 0; duration := 10 |}
                {| node := 6; when := 50; duration := 10 |}).
  by vm_compute in Hgapless; specialize (Hgapless eq_refl eq_refl).
Qed.

Example three_seconds :
  nextStartTimeRef threeSeconds = nextStartTimeRef connected + 3 * 24000 ∧
  node <$> started threeSeconds = [5; 6; 7]%positive ∧
  sourceNodesRef threeSeconds = ∅.
Proof. by vm_compute. Qed.

(** ** Interruption *)

Lemma stopped_all (X : gset positive) (log : list positive) source :
  source ∈ X ∨ source ∈ log → source ∈ set_fold (λ source acc, acc ++ [source]) log X.
Proof.
  revert source.
  apply (set_fold_ind_L (λ acc X, ∀ source, source ∈ X ∨ source ∈ log → source ∈ acc)).
  - intros source [Hin | Hin]; [by apply not_elem_of_empty in Hin | done].
  - intros x Y acc Hx IH source Hin. rewrite elem_of_app, list_elem_of_singleton.
    destruct (decide (source = x)); [by right | left].
    apply IH. destruct Hin as [Hin|Hin]; [left | by right].
    apply elem_of_union in Hin as [Hin|Hin]; [by apply elem_of_singleton in Hin | done].
Qed.

Lemma handleInterruption_flush m s :
  interrupted m = true →
  sourceNodesRef (handleInterruption m s) = ∅ ∧
  (∀ source, source ∈ sourceNodesRef s ∨ source ∈ stopped s →
     source ∈ stopped (handleInterruption m s)) ∧
  nextStartTimeRef (handleInterruption m s)
  = (if null (audioContextRef s) then nextStartTimeRef s else currentTime s).
Proof.
  intros Hint. unfold handleInterruption. rewrite Hint.
  cbn -[set_fold]. destruct (audioContextRef s); cbn -[set_fold];
    (split_and!; [done | apply stopped_all | done]).
Qed.



Lemma same_disconnectRest s : samePlayback s (disconnectRest s).
Proof. unfold samePlayback, disconnectRest, stopCamera. by decide_tests. Qed.

Lemma same_disconnectAwaitDone p session s : samePlayback s (disconnectAwaitDone p session s).
Proof.
  unfold disconnectAwaitDone.
  destruct (same_disconnectRest
              (set_sessionPromiseRef None
                 (match session with
                  | Some false => release (Session p) s
                  | _ => log "Error closing session" s
                  end))) as (E1 & E2 & E3).
  unfold samePlayback. rewrite E1, E2, E3. by destruct session as [[]|].
Qed.

Lemma same_disconnectBegin s : samePlayback s (disconnectBegin s).
Proof.
  unfold disconnectBegin. cbn. destruct (sessionPromiseRef s); [done|].
  apply (same_disconnectRest (set_isConnectedRef false s)).
Qed.










Example interrupted_after_two :
  (5 ∈ stopped interruptedAfterTwo ∧ 6 ∈ stopped interruptedAfterTwo)%positive ∧
  sourceNodesRef interruptedAfterTwo = ∅ ∧
  nextStartTimeRef interruptedAfterTwo = currentTime interruptedAfterTwo.
Proof.
  split; [|by vm_compute].
  replace (stopped interruptedAfterTwo) with [6; 5]%positive by (by vm_compute).
  split; [apply list_elem_of_further, list_elem_of_here | apply list_elem_of_here].
Qed.

(** ** A chunk that does not decode *)






(** The chunk in flight: a chunk is being decoded, with the cursor at 0, when
    at clock 5 a second one arrives that does not decode.  The first chunk, of
    10 frames, then starts at 5 and a third at 15; had the broken chunk not
    arrived they would start at 0 and at 10. *)
Example broken_chunk_delays_chunk_in_flight :
  let m := audioMessage "UklGRg==" None in
  let rest := [Settle 0 (Decoded (Some 10)); OnMessage m; Settle 0 (Decoded (Some 10))] in
  when <$> startedSince decodingLate (run rest (receiveBroken m decodingLate)) = [5; 15] ∧
  when <$> startedSince decodingLate (run rest decodingLate) = [0; 10].
Proof. by vm_compute. Qed.


(** ** Teardown *)

(** The hang-up of the model, run without anything in between, is
    [disconnect]. *)
Lemma hangUp_disconnect s p thr :
  sessionPromiseRef s = Some p →
  step (Settle (length (pending s)) (SessionResolved thr)) (step ClickHangUp s)
  = disconnect (Some thr) s.
Proof.
  intros Hp.
  assert (Hbegin : step ClickHangUp s
                   = defer (DisconnectAwaitDone p) (set_isConnectedRef false s)).
  { simpl. unfold disconnectBegin. fields. by rewrite Hp. }
  rewrite Hbegin. erewrite step_settle; [| by apply list_lookup_middle | done].
  unfold disconnect. fields. rewrite Hp. f_equal. fields.
  by rewrite delete_middle, app_nil_r.
Qed.

(** Nothing is left to release. *)
Lemma disconnect_again session s :
  allReleased s → connectionState s = DISCONNECTED → isConnectedRef s = false →
  disconnect session s = s.
Proof.
  unfold allReleased, disconnect, disconnectRest, stopCamera.
  destruct s. fields. intros (-> & -> & -> & -> & ->) -> ->. reflexivity.
Qed.

Lemma stopCamera_released s :
  streamRef (stopCamera s) = None ∧ videoIntervalRef (stopCamera s) = None ∧
  (∀ m, streamRef s = Some m → Stream m ∈ released (stopCamera s)) ∧
  (∀ i, videoIntervalRef s = Some i → Interval i ∈ released (stopCamera s)) ∧
  (∀ r, r ∈ released s → r ∈ released (stopCamera s)) ∧
  sessionPromiseRef (stopCamera s) = sessionPromiseRef s ∧
  inputAudioContextRef (stopCamera s) = inputAudioContextRef s ∧
  audioContextRef (stopCamera s) = audioContextRef s ∧
  isConnectedRef (stopCamera s) = isConnectedRef s.
Proof.
  unfold stopCamera, release.
  destruct (streamRef s) as [m|] eqn:Hm, (videoIntervalRef s) as [i|] eqn:Hi; fields;
    rewrite ?Hm, ?Hi; fields; split_and!; try done; intros; simplify_eq;
    rewrite ?elem_of_app, ?list_elem_of_singleton; auto.
Qed.

Lemma disconnectRest_released s :
  allReleased (set_sessionPromiseRef None (disconnectRest s)) ∧
  handedBack s (disconnectRest s) ∧
  (∀ r, r ∈ released s → r ∈ released (disconnectRest s)) ∧
  sessionPromiseRef (disconnectRest s) = sessionPromiseRef s ∧
  connectionState (disconnectRest s) = DISCONNECTED ∧
  isConnectedRef (disconnectRest s) = isConnectedRef s.
Proof.
  unfold disconnectRest, allReleased, handedBack.
  set (s1 := match inputAudioContextRef s with Some _ => _ | None => _ end).
  set (s2 := match audioContextRef s1 with Some _ => _ | None => _ end).
  assert (H1 : inputAudioContextRef s1 = None ∧ audioContextRef s1 = audioContextRef s ∧
               streamRef s1 = streamRef s ∧ videoIntervalRef s1 = videoIntervalRef s ∧
               sessionPromiseRef s1 = sessionPromiseRef s ∧
               isConnectedRef s1 = isConnectedRef s ∧
               (∀ c, inputAudioContextRef s = Some c → Context c ∈ released s1) ∧
               (∀ r, r ∈ released s → r ∈ released s1)).
  { unfold s1, release. destruct (inputAudioContextRef s) eqn:E; fields;
      split_and!; try done; intros; simplify_eq;
      rewrite ?elem_of_app, ?list_elem_of_singleton; auto. }
  destruct H1 as (I1 & O1 & S1 & V1 & P1 & F1 & R1 & K1).
  assert (H2 : inputAudioContextRef s2 = None ∧ audioContextRef s2 = None ∧
               streamRef s2 = streamRef s ∧ videoIntervalRef s2 = videoIntervalRef s ∧
               sessionPromiseRef s2 = sessionPromiseRef s ∧
               isConnectedRef s2 = isConnectedRef s ∧
               (∀ c, audioContextRef s = Some c → Context c ∈ released s2) ∧
               (∀ r, r ∈ released s1 → r ∈ released s2)).
  { unfold s2, release. rewrite <- O1, <- S1, <- V1, <- P1, <- F1.
    destruct (audioContextRef s1) eqn:E; fields;
      split_and!; try done; intros; simplify_eq;
      rewrite ?elem_of_app, ?list_elem_of_singleton; auto. }
  destruct H2 as (I2 & O2 & S2 & V2 & P2 & F2 & R2 & K2).
  destruct (stopCamera_released s2) as (S3 & V3 & RS & RV & K3 & P3 & I3 & O3 & F3).
  fields. rewrite S3, V3, I3, O3, P3, F3, I2, O2, P2, F2.
  split_and!; try done.
  - intros m Hm. apply RS. congruence.
  - auto.
  - auto.
  - intros i Hi. apply RV. congruence.
  - auto.
Qed.

#[local] Arguments disconnectRest : simpl never.

(** C6.  [disconnect] called twice in a row: the second call changes nothing
    and logs nothing.  After the first call already, no ref holds a resource
    any more, what the refs held was handed back (the session was closed if
    its promise gave one and the call went through), the state is
    [DISCONNECTED] and the guard flag is down.  An error while the session is
    closed is caught and logged, whatever it is. *)
Theorem disconnect_idempotent (s : State) (session1 session2 : option bool) :
  disconnect session2 (disconnect session1 s) = disconnect session1 s ∧
  allReleased (disconnect session1 s) ∧
  handedBack s (disconnect session1 s) ∧
  (∀ p, sessionPromiseRef s = Some p → session1 = Some false →
        Session p ∈ released (disconnect session1 s)) ∧
  connectionState (disconnect session1 s) = DISCONNECTED ∧
  isConnectedRef (disconnect session1 s) = false.
Proof.
  assert (Hfacts : allReleased (disconnect session1 s) ∧
                   handedBack s (disconnect session1 s) ∧
                   (∀ p, sessionPromiseRef s = Some p → session1 = Some false →
                         Session p ∈ released (disconnect session1 s)) ∧
                   connectionState (disconnect session1 s) = DISCONNECTED ∧
                   isConnectedRef (disconnect session1 s) = false).
  { unfold disconnect, allReleased, handedBack.
    change (sessionPromiseRef (set_isConnectedRef false s)) with (sessionPromiseRef s).
    destruct (sessionPromiseRef s) as [p|] eqn:Hp.
    - unfold disconnectAwaitDone.
      set (s0 := set_sessionPromiseRef None _).
      assert (Hs0 : sessionPromiseRef s0 = None ∧ isConnectedRef s0 = false ∧
                    streamRef s0 = streamRef s ∧
                    inputAudioContextRef s0 = inputAudioContextRef s ∧
                    audioContextRef s0 = audioContextRef s ∧
                    videoIntervalRef s0 = videoIntervalRef s ∧
                    (session1 = Some false → Session p ∈ released s0)).
      { unfold s0, release. destruct session1 as [[]|]; fields; split_and!; try done.
        intros _. rewrite elem_of_app, list_elem_of_singleton. auto. }
      destruct Hs0 as (P0 & F0 & S0 & I0 & O0 & V0 & R0).
      destruct (disconnectRest_released s0) as (Hall & Hback & Hkeep & Hp' & Hcs & Hflag).
      unfold allReleased, handedBack in Hall, Hback.
      rewrite S0, I0, O0, V0 in Hback. rewrite Hp', Hflag, P0, F0.
      split_and!; try tauto.
      intros p' [= <-] Hsession. auto.
    - destruct (disconnectRest_released (set_isConnectedRef false s))
        as (Hall & Hback & _ & Hp' & Hcs & Hflag).
      unfold allReleased, handedBack in Hall, Hback. rewrite Hp', Hflag.
      split_and!; try tauto; done. }
  split; [|done].
  destruct Hfacts as (Hall & _ & _ & Hcs & Hflag). by apply disconnect_again.
Qed.

Lemma disconnect_idempotent_witness :
  sessionPromiseRef connected = Some 3%positive ∧
  Session 3 ∈ released (disconnect (Some false) connected) ∧
  disconnect (Some true) (disconnect (Some false) connected)
  = disconnect (Some false) connected.
Proof.
  destruct (disconnect_idempotent connected (Some false) (Some true))
    as (Hagain & _ & _ & Hsession & _).
  split_and!; [reflexivity | by apply Hsession | exact Hagain].
Defined.

(** ** A call that does not get the camera *)

(** C7.  The user asks for a call, the key is there, no stream is held and
    [getUserMedia] fails: the error is shown, the connection state is the one
    before the click, which is neither [CONNECTING] nor [CONNECTED], no stream
    is retained, and nothing else has happened: no audio context, no session,
    no task. *)
Theorem camera_denied_aborts (s : State) (initThrows : bool) (t0 : N) :
  truthy (apiKey s) = true → streamRef s = None → callButtonShown s = true →
  let s' := step (ClickCall None initThrows t0) s in
  s' = s |> log "Error accessing media devices:"
         |> setError (Some "Camera/Mic permission denied or unavailable.") ∧
  error s' = Some "Camera/Mic permission denied or unavailable." ∧
  connectionState s' = connectionState s ∧
  connectionState s' ≠ CONNECTING ∧ connectionState s' ≠ CONNECTED ∧
  streamRef s' = None ∧
  isConnectedRef s' = isConnectedRef s ∧
  sessionPromiseRef s' = sessionPromiseRef s ∧
  audioContextRef s' = audioContextRef s ∧
  inputAudioContextRef s' = inputAudioContextRef s.
Proof.
  intros Hkey Hstream Hbutton s'.
  assert (Hs' : s' = s |> log "Error accessing media devices:"
                       |> setError (Some "Camera/Mic permission denied or unavailable.")).
  { unfold s'. simpl. unfold connectToLiveApi, startCamera. by rewrite Hkey, Hstream. }
  rewrite Hs'. fields.
  assert (connectionState s ≠ CONNECTING ∧ connectionState s ≠ CONNECTED) as [??].
  { unfold callButtonShown in Hbutton. by destruct (connectionState s). }
  done.
Qed.

Lemma camera_denied_aborts_witness :
  truthy (apiKey (initial "key")) = true ∧
  streamRef (initial "key") = None ∧
  callButtonShown (initial "key") = true ∧
  connectionState (step (ClickCall None false 0) (initial "key")) = DISCONNECTED ∧
  error (step (ClickCall None false 0) (initial "key"))
  = Some "Camera/Mic permission denied or unavailable.".
Proof.
  split_and!; [reflexivity.. | |];
    destruct (camera_denied_aborts (initial "key") false 0 eq_refl eq_refl eq_refl)
      as (_ & Herror & Hstate & _).
  - by rewrite Hstate.
  - exact Herror.
Defined.

(** ** The parts of a message *)

(** C9.  The audio of a message is the data of the first part of its model
    turn, whatever the other parts carry.  When the first part has no audio,
    the message leaves no decoding behind and starts no source; in any case a
    message leaves at most one decoding behind. *)
Theorem only_first_part_heard (message : SDK.LiveServerMessage) (s : State) :
  base64Audio message = firstPartData message ∧
  (∀ message', head (partsOf message') = head (partsOf message) →
     base64Audio message' = base64Audio message) ∧
  (from_option truthy false (firstPartData message) = false →
     step (OnMessage message) s = handleInterruption message s ∧
     pending (step (OnMessage message) s) = pending s ∧
     started (step (OnMessage message) s) = started s) ∧
  (pending (step (OnMessage message) s) = pending s ∨
   pending (step (OnMessage message) s) = pending s ++ [DecodeAudioDataDone message]).
Proof.
  assert (Hfirst : ∀ m, base64Audio m = firstPartData m).
  { by intros [[[[[[[|first others]|]]|] i]|]]. }
  split_and!.
  - apply Hfirst.
  - intros m' Hhead. rewrite !Hfirst. unfold firstPartData. by rewrite Hhead.
  - rewrite <- Hfirst. intros Hnone. simpl. unfold onmessage. rewrite Hnone. simpl.
    by rewrite pending_handleInterruption, started_handleInterruption.
  - simpl. unfold onmessage. case_match; [by right | left].
    apply pending_handleInterruption.
Qed.

Lemma only_first_part_heard_witness :
  from_option truthy false
    (firstPartData audioInSecondPart) = false ∧
  pending (step (OnMessage audioInSecondPart) connected) = pending connected ∧
  started (step (OnMessage audioInSecondPart) connected) = started connected.
Proof.
  split; [reflexivity|].
  by destruct (only_first_part_heard audioInSecondPart connected)
    as (_ & _ & Hskip & _); destruct (Hskip eq_refl) as (_ & ? & ?).
Defined.

End LiveViewProofs.

(** * Facts about the PCM encoder *)

Module AudioUtilsProofs.
Import AudioUtils.

Example sample_values :
  sample <$> someSamples = [0; 32767; -32768; 16383; -10922; 24575]%Z.
Proof. reflexivity. Qed.

(** ** Truncation *)

Lemma truncate_proper (x y : Q) : (x == y)%Q → truncate x = truncate y.
Proof.
  unfold Qeq, truncate. destruct x as [nx dx], y as [ny dy]. simpl. intros Heq.
  rewrite <- (Z.quot_mul_cancel_r nx (Z.pos dx) (Z.pos dy)) by lia.
  rewrite Heq, (Z.mul_comm (Z.pos dx)).
  by rewrite Z.quot_mul_cancel_r by lia.
Qed.

Lemma truncate_bounds (a b : Z) (q : Q) :
  (a ≤ 0 ≤ b)%Z → (inject_Z a <= q <= inject_Z b)%Q → (a ≤ truncate q ≤ b)%Z.
Proof.
  unfold Qle, truncate. destruct q as [n d]. simpl. intros [Ha Hb] [Hlo Hhi].
  rewrite Z.mul_1_r in Hlo, Hhi. split.
  - rewrite <- (Z.quot_mul a (Z.pos d)) by lia. apply Z.quot_le_mono; lia.
  - rewrite <- (Z.quot_mul b (Z.pos d)) by lia. apply Z.quot_le_mono; lia.
Qed.

Lemma truncate_near (q : Q) :
  (inject_Z (truncate q) - 1 < q < inject_Z (truncate q) + 1)%Q.
Proof.
  unfold truncate. destruct q as [n d]. simpl.
  pose proof (Z.quot_rem' n (Z.pos d)) as Hdiv.
  pose proof (Z.rem_bound_abs n (Z.pos d) ltac:(lia)) as Hrem.
  unfold Qlt, Qminus, Qplus, Qopp, inject_Z. simpl. lia.
Qed.

(** ** Clamping and scaling *)

Lemma clamp_bounds (x : Q) : (-1 <= clamp x <= 1)%Q.
Proof.
  unfold clamp.
  destruct (Q.max_spec (-1) (Qmin 1 x)) as [[H1 H2]|[H1 H2]],
    (Q.min_spec 1 x) as [[H3 H4]|[H3 H4]]; lra.
Qed.

Lemma clamp_id (x : Q) : (-1 <= x <= 1)%Q → (clamp x == x)%Q.
Proof.
  intros [Hlo Hhi]. unfold clamp.
  destruct (Q.max_spec (-1) (Qmin 1 x)) as [[H1 H2]|[H1 H2]],
    (Q.min_spec 1 x) as [[H3 H4]|[H3 H4]]; lra.
Qed.

Lemma scale_bounds (x : Q) : (inject_Z (-32768) <= scale x <= inject_Z 32767)%Q.
Proof.
  unfold scale. pose proof (clamp_bounds x) as [Hlo Hhi].
  change (inject_Z (-32768)) with (-32768)%Q. change (inject_Z 32767) with 32767%Q.
  destruct (Qlt_le_dec (clamp x) 0); lra.
Qed.

Lemma scale_negative (x : Q) :
  (-1 <= x <= 1)%Q → (x < 0)%Q → (scale x == x * 32768)%Q.
Proof.
  intros Hx Hneg. pose proof (clamp_id x Hx) as Hid. unfold scale.
  destruct (Qlt_le_dec (clamp x) 0); lra.
Qed.

Lemma scale_non_negative (x : Q) :
  (-1 <= x <= 1)%Q → (0 <= x)%Q → (scale x == x * 32767)%Q.
Proof.
  intros Hx Hpos. pose proof (clamp_id x Hx) as Hid. unfold scale.
  destruct (Qlt_le_dec (clamp x) 0); lra.
Qed.

(** ** The 16-bit store and the bytes *)

Lemma truncate_scale_bounds (x : Q) : (-32768 ≤ truncate (scale x) ≤ 32767)%Z.
Proof. apply truncate_bounds; [lia | apply scale_bounds]. Qed.

(** The store never wraps. *)
Lemma sample_truncate (x : Q) : sample x = truncate (scale x).
Proof.
  unfold sample, toInt16. pose proof (truncate_scale_bounds x).
  rewrite Z.mod_small; lia.
Qed.

Lemma littleEndian_bytes (z : Z) : Forall (λ b, 0 ≤ b < 256)%Z (littleEndian z).
Proof. unfold littleEndian. repeat constructor; apply Z.mod_pos_bound; lia. Qed.

Lemma readInt16_littleEndian (z : Z) (rest : list Z) :
  (-32768 ≤ z ≤ 32767)%Z → readInt16 (littleEndian z ++ rest) = z :: readInt16 rest.
Proof.
  intros Hz. unfold littleEndian. simpl. f_equal.
  destruct (Z.ltb_spec (z mod 256 + 256 * ((z / 256) mod 256)) 32768);
    Z.div_mod_to_equations; lia.
Qed.

Lemma readInt16_concat (zs : list Z) :
  Forall (λ z, -32768 ≤ z ≤ 32767)%Z zs → readInt16 (concat (littleEndian <$> zs)) = zs.
Proof.
  induction 1 as [|z zs Hz _ IH]; [done|].
  rewrite fmap_cons. cbn [concat]. by rewrite readInt16_littleEndian, IH.
Qed.

(** ** The reference conversion *)

Lemma sample_reference (x : Q) : (Z.abs (sample x - reference x) ≤ 1)%Z.
Proof.
  rewrite sample_truncate. unfold reference.
  pose proof (truncate_near (scale x)) as [Hlo Hhi].
  pose proof (Qfloor_le (scale x + (1 # 2))) as Hfloor.
  pose proof (Qlt_floor (scale x + (1 # 2))) as Hceil.
  rewrite inject_Z_plus in Hceil. change (inject_Z 1) with 1%Q in Hceil.
  set (t := truncate (scale x)) in *. set (r := Qfloor (scale x + (1 # 2))) in *.
  assert (H1 : (inject_Z t < inject_Z r + 2)%Q) by lra.
  assert (H2 : (inject_Z r < inject_Z t + 2)%Q) by lra.
  unfold Qlt, Qplus, inject_Z in H1, H2. simpl in H1, H2. lia.
Qed.

(** C4.  The encoder on a buffer of samples in [-1, 1].  The buffer holds two
    bytes for each sample, low byte first, tagged 16 kHz, and read back as
    16-bit integers it gives the encoded samples.  Each encoded sample lies in
    [-32768, 32767]; it is the integer part of the sample times 32768 when the
    sample is negative and of the sample times 32767 otherwise; it is within
    one unit of the exact scaled value, and within one unit of the reference
    conversion that rounds the same scaled value to the nearest integer. *)
Theorem pcm_encoder (data : list Q) :
  Forall (λ x, -1 <= x <= 1)%Q data →
  readInt16 (bytes (createPcmBlob data)) = sample <$> data ∧
  length (bytes (createPcmBlob data)) = (2 * length data)%nat ∧
  Forall (λ b, 0 ≤ b < 256)%Z (bytes (createPcmBlob data)) ∧
  rate (createPcmBlob data) = 16000%N ∧
  ∀ x, x ∈ data →
    (-32768 ≤ sample x ≤ 32767)%Z ∧
    ((x < 0)%Q → sample x = truncate (x * 32768)) ∧
    ((0 <= x)%Q → sample x = truncate (x * 32767)) ∧
    (inject_Z (sample x) - 1 < scale x < inject_Z (sample x) + 1)%Q ∧
    (Z.abs (sample x - reference x) ≤ 1)%Z.
Proof.
  intros Hdata. unfold createPcmBlob. cbn [bytes rate]. split_and!.
  - apply readInt16_concat. apply Forall_fmap, Forall_true. intros x. cbn [compose].
    rewrite sample_truncate. apply truncate_scale_bounds.
  - induction data as [|x data IH]; [done|]. apply Forall_cons in Hdata as [_ Hdata].
    rewrite !fmap_cons. cbn [concat]. rewrite length_app, IH by done.
    unfold littleEndian. simpl. lia.
  - apply Forall_concat, Forall_fmap, Forall_true. intros z. apply littleEndian_bytes.
  - done.
  - intros x Hx. rewrite Forall_forall in Hdata. specialize (Hdata x Hx).
    split; [rewrite sample_truncate; apply truncate_scale_bounds|].
    split; [|split; [|split]].
    + intros Hneg. rewrite sample_truncate. by apply truncate_proper, scale_negative.
    + intros Hpos. rewrite sample_truncate. by apply truncate_proper, scale_non_negative.
    + rewrite sample_truncate. apply truncate_near.
    + apply sample_reference.
Qed.

Lemma pcm_encoder_witness :
  Forall (λ x, -1 <= x <= 1)%Q someSamples ∧
  readInt16 (bytes (createPcmBlob someSamples))
  = [0; 32767; -32768; 16383; -10922; 24575]%Z.
Proof.
  assert (H : Forall (λ x, -1 <= x <= 1)%Q someSamples).
  { repeat constructor; by vm_compute. }
  split; [exact H|].
  destruct (pcm_encoder someSamples H) as (-> & _). reflexivity.
Defined.

End AudioUtilsProofs.

(** * Facts about the text chat *)

Module DeepChatProofs.
Import DeepChat.

(** ** trim *)

Lemma trimStart_blank x : blank x = true → trimStart x = "".
Proof.
  induction x as [|c rest IH]; [done|]. simpl. intros [Hc Hrest]%andb_prop.
  rewrite Hc. by apply IH.
Qed.

Lemma blank_trimStart x : blank (trimStart x) = blank x.
Proof.
  induction x as [|c rest IH]; [done|]. simpl.
  destruct (isWhiteSpace c) eqn:Hc; [done|]. simpl. by rewrite Hc.
Qed.

Lemma blank_rev_app x y : blank (String.rev_app x y) = blank x && blank y.
Proof.
  revert y. induction x as [|c rest IH]; intros y; [done|]. simpl. rewrite IH. simpl.
  by destruct (isWhiteSpace c), (blank rest), (blank y).
Qed.

Lemma blank_rev x : blank (String.rev x) = blank x.
Proof. unfold String.rev. rewrite blank_rev_app. simpl. apply andb_true_r. Qed.

Lemma blank_truthy x : blank x = false → truthy x = true.
Proof. by destruct x. Qed.

(** The test of [handleSend] on the input: the trimmed input is the empty
    string exactly when the input is blank. *)
Lemma truthy_trim x : truthy (trim x) = negb (blank x).
Proof.
  unfold trim, trimEnd. destruct (blank x) eqn:Hx; simpl.
  - by rewrite (trimStart_blank x Hx).
  - apply blank_truthy. by rewrite blank_rev, blank_trimStart, blank_rev, blank_trimStart.
Qed.

(** ** handleSend *)

Lemma slice_last_length {A} (n : nat) (xs : list A) :
  length (slice_last n xs) = (n `min` length xs)%nat.
Proof. unfold slice_last. rewrite length_drop. lia. Qed.

(** C8, as amended.  A send whose input has a character that is not white
    space, with a key: one request is issued, and it carries the system
    context, then the last five turns shown before the send (all of them when
    there are fewer), then the input.  When the request has settled, no other
    request has been issued and one message of the model is shown, whose text
    is the text of the response, or a fixed sentence when the response has no
    text or the request failed. *)
Theorem send_issues_one_request (s : State) (now : N) :
  blank (input s) = false → truthy (apiKey s) = true →
  let s' := handleSend now s in
  requests s' = requests s ++ [request (messages s) (input s)] ∧
  GenAI.contents (request (messages s) (input s))
  = {| GenAI.role := user; GenAI.parts := [systemContext] |}
      :: (turn <$> slice_last 5 (messages s))
      ++ [{| GenAI.role := user; GenAI.parts := [input s] |}] ∧
  slice_last 5 (messages s) `suffix_of` messages s ∧
  length (slice_last 5 (messages s)) = (5 `min` length (messages s))%nat ∧
  (∃ userMsg, messages s' = messages s ++ [userMsg] ∧
              role userMsg = user ∧ text userMsg = input s) ∧
  input s' = "" ∧ isLoading s' = true ∧
  ∀ now' r,
    let s'' := handleSendDone now' r s' in
    requests s'' = requests s' ∧ isLoading s'' = false ∧
    ∃ reply, messages s'' = messages s' ++ [reply] ∧ role reply = model ∧
             text reply = match r with
                          | Answer (Some t) => if truthy t then t else fallbackText
                          | Answer None => fallbackText
                          | Failure => errorText
                          end.
Proof.
  intros Hinput Hkey s'. unfold s', handleSend.
  rewrite truthy_trim, Hinput, Hkey. cbn [negb orb].
  split_and!; try done.
  - apply suffix_drop.
  - apply slice_last_length.
  - by eexists.
  - intros now' [[t|]|]; simpl; (split_and!; [done | done | by eexists]).
Qed.

Lemma send_issues_one_request_witness :
  blank (input longTalk) = false ∧ truthy (apiKey longTalk) = true ∧
  (λ r, GenAI.parts <$> GenAI.contents r) <$> requests (handleSend 7 longTalk)
  = [[[systemContext]; ["b"]; ["c"]; ["d"]; ["e"]; ["f"]; ["g"]]].
Proof.
  split_and!; [reflexivity.. |].
  destruct (send_issues_one_request longTalk 7 eq_refl eq_refl) as (-> & _).
  reflexivity.
Defined.

(** C8, as stated, fails for an input of white space: a single space is not
    the empty string, the key is there, and no request is issued. *)
Lemma space_sends_nothing :
  input spaceTyped ≠ "" ∧ apiKey spaceTyped ≠ "" ∧
  requests (handleSend 7 spaceTyped) = [].
Proof. by vm_compute. Qed.

(** C10.  A send with an input that is empty or all white space, or with the
    empty string as the key, does nothing: the state is the one before, with
    its messages, its input and its loading flag, and no request is issued. *)
Theorem blank_send_is_noop (s : State) (now : N) :
  blank (input s) = true ∨ apiKey s = "" →
  handleSend now s = s ∧
  messages (handleSend now s) = messages s ∧
  input (handleSend now s) = input s ∧
  isLoading (handleSend now s) = isLoading s ∧
  requests (handleSend now s) = requests s.
Proof.
  intros Hguard.
  assert (Hsame : handleSend now s = s).
  { unfold handleSend. rewrite truthy_trim.
    destruct Hguard as [-> | ->]; [done | by rewrite orb_true_r]. }
  by rewrite Hsame.
Qed.

Lemma blank_send_is_noop_witness :
  blank (input spaceTyped) = true ∧ handleSend 7 spaceTyped = spaceTyped.
Proof.
  split; [reflexivity|].
  by destruct (blank_send_is_noop spaceTyped 7 (or_introl eq_refl)) as (-> & _).
Defined.

End DeepChatProofs.

(** * Further facts about the live call *)

Module LiveViewMoreProofs.
Import LiveView LiveViewMore LiveViewProofs.

(** ** The data URL of a frame *)

Lemma split_no_sep sep x : contains sep x = false → split sep x = [x].
Proof.
  induction x as [|c rest IH]; [done|]. simpl.
  intros [Hc Hrest]%orb_false_elim. by rewrite Hc, IH.
Qed.

Lemma split_app sep x y :
  contains sep x = false → split sep (x +:+ String sep y) = x :: split sep y.
Proof.
  induction x as [|c rest IH]; simpl.
  - intros _. by rewrite Ascii.eqb_refl.
  - intros [Hc Hrest]%orb_false_elim. by rewrite Hc, IH.
Qed.

Lemma split_head sep x : ∃ piece pieces, split sep x = piece :: pieces.
Proof.
  induction x as [|c rest (piece & pieces & IH)]; simpl; [by eauto|].
  destruct (Ascii.eqb c sep); [by eauto|]. rewrite IH. by eauto.
Qed.

(** X1.  [blobToBase64] on a data URL, a header without a comma, a comma and
    the payload: the promise gives the payload up to its first comma, hence
    the whole payload when it has none, as base64 text has none.  On a result
    without any comma it gives [undefined]. *)
Theorem data_url_payload (header payload : string) :
  contains "," header = false →
  blobToBase64 (header +:+ "," +:+ payload) = head (split "," payload) ∧
  (contains "," payload = false →
     blobToBase64 (header +:+ "," +:+ payload) = Some payload) ∧
  blobToBase64 header = None.
Proof.
  intros Hheader. unfold blobToBase64.
  change ("," +:+ payload) with (String "," payload).
  rewrite split_app by done. split_and!.
  - by destruct (split_head "," payload) as (piece & pieces & ->).
  - intros Hpayload. by rewrite split_no_sep.
  - by rewrite split_no_sep.
Qed.

Lemma data_url_payload_witness :
  contains "," "data:image/jpeg;base64" = false ∧
  blobToBase64 "data:image/jpeg;base64,/9j/4AAQSkZJRg==" = Some "/9j/4AAQSkZJRg==".
Proof.
  split; [reflexivity|].
  by destruct (data_url_payload "data:image/jpeg;base64" "/9j/4AAQSkZJRg==" eq_refl)
    as (_ & Hpayload & _); apply Hpayload.
Defined.

(** ** What is shown *)

(** X2.  The controls.  The call button is shown in [DISCONNECTED] and in
    [ERROR] and never anywhere else; when it is shown it is enabled and reads
    'Call Maya': the spinner and the disabled state are never rendered.  In
    [CONNECTING] and [CONNECTED] the button hangs up.  After a click on the
    call button that gets as far as the session, the button shown is the
    hang-up button.  The badge is the green 'Maya Connected' exactly in
    [CONNECTED], which is when the visualizer is active; otherwise it shows
    the name of the state. *)
Theorem call_button_never_disabled (s : State) :
  (button s = CallMaya false false ∨ button s = HangUp) ∧
  (button s = HangUp ↔ connectionState s = CONNECTING ∨ connectionState s = CONNECTED) ∧
  (button s = CallMaya false false ↔ callButtonShown s = true) ∧
  (badge s = ("Maya Connected", true) ↔ connectionState s = CONNECTED) ∧
  (connectionState s ≠ CONNECTED → badge s = (enumValue (connectionState s), false)) ∧
  snd (badge s) = visualizerActive s ∧
  (∀ gum initThrows t0,
     callButtonShown s = true → truthy (apiKey s) = true →
     is_Some (streamRef s) ∨ is_Some gum →
     click gum initThrows t0 s = ClickCall gum initThrows t0 ∧
     (initThrows = false → button (step (click gum initThrows t0 s) s) = HangUp)).
Proof.
  split_and!.
  - unfold button. destruct (connectionState s); auto.
  - unfold button. destruct (connectionState s); simpl;
      (split; [intros ?; auto; done | intros [?|?]; done]).
  - unfold button, callButtonShown. destruct (connectionState s); simpl;
      (split; intros ?; done).
  - unfold badge. destruct (connectionState s); simpl; (split; intros ?; done).
  - unfold badge. by destruct (connectionState s).
  - done.
  - intros gum thr t0 Hshown Hkey Hcamera.
    assert (Hclick : click gum thr t0 s = ClickCall gum thr t0).
    { unfold click, button, callButtonShown in *. by destruct (connectionState s). }
    split; [done|]. intros ->. rewrite Hclick. simpl.
    unfold connectToLiveApi, startCamera. rewrite Hkey. simpl.
    destruct (streamRef s) as [m|], gum as [m'|]; try done.
    destruct Hcamera as [[? [=]]|[? [=]]].
Qed.

Lemma call_button_never_disabled_witness :
  callButtonShown initFailed = true ∧ button initFailed = CallMaya false false ∧
  button (step (click None false 0 initFailed) initFailed) = HangUp.
Proof.
  destruct (call_button_never_disabled initFailed) as (_ & _ & Hshown & _ & _ & _ & Hclick).
  split_and!; [reflexivity | by apply Hshown |].
  by apply (Hclick None false 0 eq_refl eq_refl); [left; eexists | ].
Defined.

(** ** A call without a key, a call that cannot be set up *)

Lemma no_key_step key t err e :
  truthy key = false → userAction e = true →
  ∃ t' err',
    step e (initial key |> set_currentTime t |> setError err)
    = initial key |> set_currentTime t' |> setError err' ∧
    (newCall e = true → err' = Some "API Key is missing.") ∧
    (err = Some "API Key is missing." → err' = Some "API Key is missing.").
Proof.
  intros Hkey Haction. destruct e; try done; simpl.
  - exists t, (Some "API Key is missing."). unfold connectToLiveApi. fields.
    by rewrite Hkey.
  - by exists t, err.
  - by exists (t + dt), err.
Qed.

(** X3.  Without a key (the empty string), whatever the user clicks and
    however long it lasts: no camera is asked for, no audio context and no
    session is made, nothing is sent, nothing waits, and the state stays
    [DISCONNECTED].  Every click on the call button shows 'API Key is
    missing.'. *)
Theorem no_key_no_call (key : string) (events : list Event) :
  truthy key = false → Forall (λ e, userAction e = true) events →
  let s := run events (initial key) in
  streamRef s = None ∧ inputAudioContextRef s = None ∧ audioContextRef s = None ∧
  sessionPromiseRef s = None ∧ videoIntervalRef s = None ∧
  sent s = [] ∧ started s = [] ∧ pending s = [] ∧ console s = [] ∧
  isConnectedRef s = false ∧ connectionState s = DISCONNECTED ∧
  (Exists (λ e, newCall e = true) events → error s = Some "API Key is missing.").
Proof.
  intros Hkey Hevents.
  assert (Hrun : ∀ t err,
            ∃ t' err',
              run events (initial key |> set_currentTime t |> setError err)
              = initial key |> set_currentTime t' |> setError err' ∧
              (Exists (λ e, newCall e = true) events ∨ err = Some "API Key is missing." →
               err' = Some "API Key is missing.")).
  { induction Hevents as [|e events He _ IH]; intros t err.
    - exists t, err. split; [done|]. intros [Hex|Herr]; [by apply Exists_nil in Hex | done].
    - destruct (no_key_step key t err e Hkey He) as (t1 & err1 & Hstep & Hcall & Hkeep).
      destruct (IH t1 err1) as (t' & err' & Hrest & Herr').
      exists t', err'. simpl. rewrite Hstep. split; [done|].
      intros [Hex|Herr]; apply Herr'.
      + apply Exists_cons in Hex as [Hnew|Hex]; [right; auto | by left].
      + right. auto. }
  destruct (Hrun 0 None) as (t' & err' & Hs & Herr).
  intros s. unfold s.
  replace (initial key) with (initial key |> set_currentTime 0 |> setError None) by done.
  rewrite Hs. fields. split_and!; try done. auto.
Qed.

Lemma no_key_no_call_witness :
  truthy "" = false ∧
  Forall (λ e, userAction e = true)
    [ClickCall (Some 7%positive) false 0; Tick 3; ClickHangUp] ∧
  streamRef (run [ClickCall (Some 7%positive) false 0; Tick 3; ClickHangUp] (initial ""))
  = None.
Proof.
  assert (H : Forall (λ e, userAction e = true)
                [ClickCall (Some 7%positive) false 0; Tick 3; ClickHangUp])
    by (by repeat constructor).
  split_and!; [reflexivity | exact H |].
  by destruct (no_key_no_call "" _ eq_refl H) as (Hstream & _).
Defined.

(** X4.  A call whose set-up throws (the client, an audio context): the state
    is [ERROR] with 'Failed to initialize Gemini Client.', the guard flag is
    down, no audio context and no session promise is stored, and nothing is
    released: the camera stream stays held.  The call button is shown again,
    and the next call does not ask for the camera a second time: whatever
    [getUserMedia] would answer, it goes on with the stream that is held. *)
Theorem failed_setup_can_be_retried (s : State) (gum : option positive) (t0 : N) :
  truthy (apiKey s) = true → is_Some (streamRef s) ∨ is_Some gum →
  let s' := step (ClickCall gum true t0) s in
  connectionState s' = ERROR ∧ isConnectedRef s' = false ∧
  error s' = Some "Failed to initialize Gemini Client." ∧
  inputAudioContextRef s' = inputAudioContextRef s ∧
  audioContextRef s' = audioContextRef s ∧
  sessionPromiseRef s' = sessionPromiseRef s ∧
  released s' = released s ∧
  is_Some (streamRef s') ∧
  button s' = CallMaya false false ∧
  errorBox s' = Some "Failed to initialize Gemini Client." ∧
  ∀ gum' t1,
    let s'' := step (ClickCall gum' false t1) s' in
    streamRef s'' = streamRef s' ∧
    connectionState s'' = CONNECTING ∧ error s'' = None ∧
    is_Some (inputAudioContextRef s'') ∧ is_Some (audioContextRef s'') ∧
    is_Some (sessionPromiseRef s'') ∧
    nextStartTimeRef s'' = t1 ∧ isConnectedRef s'' = false.
Proof.
  intros Hkey Hcamera. simpl. unfold connectToLiveApi, startCamera. rewrite Hkey.
  destruct (streamRef s) as [m|] eqn:Hm, gum as [m'|];
    try (by destruct Hcamera as [[? [=]]|[? [=]]]);
    fields; rewrite ?Hkey, ?Hm; fields; (split_and!; try done; try by eexists);
    intros gum' t1; (split_and!; try done; by eexists).
Qed.

Lemma failed_setup_can_be_retried_witness :
  truthy (apiKey (initial "key")) = true ∧
  connectionState (step (ClickCall (Some 7%positive) true 0) (initial "key")) = ERROR ∧
  streamRef (step (ClickCall None false 0)
               (step (ClickCall (Some 7%positive) true 0) (initial "key")))
  = Some 7%positive.
Proof.
  destruct (failed_setup_can_be_retried (initial "key") (Some 7%positive) 0 eq_refl)
    as (Hstate & _ & _ & _ & _ & _ & _ & _ & _ & _ & Hretry); [by right; eexists|].
  split_and!; [reflexivity | exact Hstate |].
  by destruct (Hretry None 0) as (-> & _).
Defined.

(** ** The guard flag and the refs through any run *)

Lemma flag_disconnectRest s : isConnectedRef (disconnectRest s) = isConnectedRef s.
Proof. by destruct (disconnectRest_released s) as (_ & _ & _ & _ & _ & ?). Qed.

Lemma flag_handleInterruption m s :
  isConnectedRef (handleInterruption m s) = isConnectedRef s.
Proof. unfold handleInterruption. by decide_tests. Qed.

Lemma flag_resume t o code s :
  resume t o = Some code → isConnectedRef (code s) = isConnectedRef s.
Proof.
  intros Hcode. destruct t, o as [thr| |blob|[b64|]|res]; simpl in Hcode; simplify_eq;
    try done.
  - unfold audioSendThen. by decide_tests.
  - unfold toBlobCallback. by decide_tests.
  - unfold blobToBase64Done. by decide_tests.
  - unfold videoSendThen. by decide_tests.
  - unfold decodeAudioDataDone. rewrite flag_handleInterruption. by destruct res.
  - unfold disconnectAwaitDone. rewrite flag_disconnectRest. by destruct thr.
  - unfold disconnectAwaitDone. by rewrite flag_disconnectRest.
Qed.

Lemma flag_stays_down e s :
  isOnOpen e = false → isConnectedRef s = false → isConnectedRef (step e s) = false.
Proof.
  intros He Hflag. destruct e; try done; simpl.
  - unfold connectToLiveApi, startCamera.
    by destruct (truthy (apiKey s)), (streamRef s), gum, initThrows.
  - unfold disconnectBegin. fields. destruct (sessionPromiseRef s); [done|].
    by rewrite flag_disconnectRest.
  - unfold disconnectBegin. fields. destruct (sessionPromiseRef s); [done|].
    by rewrite flag_disconnectRest.
  - unfold onmessage. case_match; [done | by rewrite flag_handleInterruption].
  - unfold onaudioprocess. by rewrite Hflag.
  - unfold videoInterval. by rewrite Hflag.
  - destruct (pending s !! k ≫= λ t, resume t o) as [code|] eqn:Hk; [|done].
    apply bind_Some in Hk as (t & _ & Hcode). by rewrite (flag_resume _ _ _ _ Hcode).
Qed.

(** X5.  The guard flag rises in [onopen] and nowhere else.  From a state in
    which it is down, a run without [onopen] leaves it down and sends nothing:
    a call that was started, failed, closed or hung up sends no payload until
    a session opens. *)
Theorem nothing_sent_before_open (s : State) (events : list Event) :
  isConnectedRef s = false → Forall (λ e, isOnOpen e = false) events →
  isConnectedRef (run events s) = false ∧ sent (run events s) = sent s.
Proof.
  intros Hflag Hevents. revert s Hflag.
  induction Hevents as [|e events He _ IH]; intros s Hflag; [done|]. simpl.
  destruct (IH (step e s)) as [IH1 IH2]; [by apply flag_stays_down|].
  by rewrite IH1, IH2, send_guarded.
Qed.

Lemma nothing_sent_before_open_witness :
  let events := [ClickCall (Some 7%positive) false 0;
                 AudioProcess {| mimeType := "audio/pcm;rate=16000"; data := "AAA=" |};
                 VideoInterval true 4; Settle 0 (BlobReady true)] in
  isConnectedRef (initial "key") = false ∧ Forall (λ e, isOnOpen e = false) events ∧
  sent (run events (initial "key")) = [].
Proof.
  intros events.
  assert (H : Forall (λ e, isOnOpen e = false) events) by (by repeat constructor).
  split_and!; [reflexivity | exact H |].
  by destruct (nothing_sent_before_open (initial "key") events eq_refl H) as [_ ->].
Defined.

Lemma refs_handleInterruption m s :
  inputAudioContextRef (handleInterruption m s) = inputAudioContextRef s ∧
  audioContextRef (handleInterruption m s) = audioContextRef s ∧
  sessionPromiseRef (handleInterruption m s) = sessionPromiseRef s.
Proof. unfold handleInterruption. by decide_tests. Qed.

Lemma heldTogether_same s s' :
  inputAudioContextRef s' = inputAudioContextRef s →
  audioContextRef s' = audioContextRef s →
  sessionPromiseRef s' = sessionPromiseRef s →
  heldTogether s → heldTogether s'.
Proof. unfold heldTogether. by intros -> -> ->. Qed.

Lemma heldTogether_released s :
  allReleased s → heldTogether s.
Proof.
  unfold allReleased, heldTogether. intros (-> & -> & -> & _). done.
Qed.

Lemma heldTogether_disconnectAwaitDone p session s :
  heldTogether (disconnectAwaitDone p session s).
Proof.
  unfold disconnectAwaitDone.
  set (s0 := set_sessionPromiseRef None _).
  destruct (disconnectRest_released s0) as (Hall & _ & _ & Hp & _).
  apply heldTogether_released. unfold allReleased in *. fields.
  rewrite Hp. split_and!; tauto.
Qed.

Lemma heldTogether_disconnectBegin s : heldTogether s → heldTogether (disconnectBegin s).
Proof.
  intros Hs. unfold disconnectBegin. fields.
  destruct (sessionPromiseRef s) as [p|] eqn:Hp; [by eapply heldTogether_same|].
  destruct (disconnectRest_released (set_isConnectedRef false s))
    as (Hall & _ & _ & Hp' & _).
  apply heldTogether_released. unfold allReleased in *. fields.
  rewrite Hp', Hp. split_and!; tauto.
Qed.

Lemma heldTogether_resume t o code s :
  resume t o = Some code → heldTogether s → heldTogether (code s).
Proof.
  intros Hcode Hs.
  destruct t as [| | | |m|p], o as [thr| |blob|[b64|]|res]; simpl in Hcode; simplify_eq;
    try done; try apply heldTogether_disconnectAwaitDone.
  - eapply heldTogether_same; [| | |exact Hs]; clear Hs; unfold audioSendThen;
      by decide_tests.
  - eapply heldTogether_same; [| | |exact Hs]; clear Hs; unfold toBlobCallback;
      by decide_tests.
  - eapply heldTogether_same; [| | |exact Hs]; clear Hs; unfold blobToBase64Done;
      by decide_tests.
  - eapply heldTogether_same; [| | |exact Hs]; clear Hs; unfold videoSendThen;
      by decide_tests.
  - unfold decodeAudioDataDone.
    set (s1 := match res with Some _ => _ | None => _ end).
    destruct (refs_handleInterruption m s1) as (E1 & E2 & E3).
    eapply heldTogether_same; [| | |exact Hs]; rewrite ?E1, ?E2, ?E3;
      unfold s1; by destruct res.
Qed.

Lemma refs_connectToLiveApi gum thr t0 s :
  (inputAudioContextRef (connectToLiveApi gum thr t0 s) = inputAudioContextRef s ∧
   audioContextRef (connectToLiveApi gum thr t0 s) = audioContextRef s ∧
   sessionPromiseRef (connectToLiveApi gum thr t0 s) = sessionPromiseRef s) ∨
  (is_Some (inputAudioContextRef (connectToLiveApi gum thr t0 s)) ∧
   is_Some (audioContextRef (connectToLiveApi gum thr t0 s)) ∧
   is_Some (sessionPromiseRef (connectToLiveApi gum thr t0 s))).
Proof.
  unfold connectToLiveApi, startCamera.
  destruct (truthy (apiKey s)), (streamRef s), gum, thr; fields;
    first [by left | right; split_and!; by eexists].
Qed.

Lemma heldTogether_step e s : heldTogether s → heldTogether (step e s).
Proof.
  intros Hs. destruct e as [gum initThrows t0| | | | | |m| | | | |k o]; simpl.
  - destruct (refs_connectToLiveApi gum initThrows t0 s) as [(E1 & E2 & E3)|(H1 & H2 & H3)].
    + by eapply heldTogether_same.
    + unfold heldTogether. tauto.
  - by apply heldTogether_disconnectBegin.
  - by apply (heldTogether_disconnectBegin (set_mounted false s)).
  - eapply heldTogether_same; [| | |exact Hs]; clear Hs; unfold onopen; by decide_tests.
  - done.
  - done.
  - unfold onmessage. case_match; [done|].
    destruct (refs_handleInterruption m s) as (E1 & E2 & E3).
    by eapply heldTogether_same.
  - done.
  - eapply heldTogether_same; [| | |exact Hs]; clear Hs; unfold onaudioprocess;
      by decide_tests.
  - eapply heldTogether_same; [| | |exact Hs]; clear Hs; unfold videoInterval;
      by decide_tests.
  - done.
  - destruct (pending s !! k ≫= λ t, resume t o) as [code|] eqn:Hk; [|done].
    apply bind_Some in Hk as (t & _ & Hcode).
    by apply (heldTogether_resume t o code).
Qed.

(** X6.  The two audio contexts and the session promise are held together:
    in every state that a run reaches from the start, each of the context refs
    is set exactly when the session promise ref is.  So a [disconnect] that
    finds no session promise has no audio context to close, and one that
    finds a promise finds both contexts. *)
Theorem contexts_held_with_session (key : string) (events : list Event) :
  let s := run events (initial key) in
  heldTogether s ∧
  (sessionPromiseRef s = None → inputAudioContextRef s = None ∧ audioContextRef s = None) ∧
  (is_Some (sessionPromiseRef s) →
   is_Some (inputAudioContextRef s) ∧ is_Some (audioContextRef s)).
Proof.
  assert (Hrun : ∀ s, heldTogether s → heldTogether (run events s)).
  { induction events as [|e events IH]; intros s Hs; [done|].
    simpl. by apply IH, heldTogether_step. }
  intros s. assert (Hs : heldTogether s) by (by apply Hrun).
  split; [done|]. destruct Hs as [Hin Hout]. split.
  - intros Hp. rewrite Hp in Hin, Hout.
    split; apply eq_None_not_Some; rewrite ?Hin, ?Hout; by intros [? [=]].
  - intros Hp. split; [by apply Hin | by apply Hout].
Qed.

Lemma contexts_held_with_session_witness :
  let s := run [ClickCall (Some 7%positive) false 0; OnOpen] (initial "key") in
  is_Some (sessionPromiseRef s) ∧
  is_Some (inputAudioContextRef s) ∧ is_Some (audioContextRef s).
Proof.
  intros s.
  assert (Hp : is_Some (sessionPromiseRef s)) by (eexists; vm_compute; reflexivity).
  split; [exact Hp|].
  pose proof (contexts_held_with_session "key"
                [ClickCall (Some 7%positive) false 0; OnOpen]) as Hheld.
  cbv zeta in Hheld. fold s in Hheld.
  destruct Hheld as (_ & _ & Hsome). exact (Hsome Hp).
Defined.

(** ** Sources never overlap *)

Lemma inSequence_earlier c c' out : c' ≤ c → inSequence c out → inSequence c' out.
Proof. destruct out as [|a out]; [done|]. simpl. intros Hc [Ha Hout]. split; [lia | done]. Qed.

Lemma endOf_cons c a out : endOf c (a :: out) = endOf (when a + duration a) out.
Proof.
  unfold endOf. destruct out as [|b out]; [done|]. rewrite last_cons_cons.
  destruct (last (b :: out)) eqn:Hlast; [done | by apply last_None in Hlast].
Qed.

Lemma endOf_earlier c c' out : c' ≤ c → endOf c' out ≤ endOf c out.
Proof. unfold endOf. intros Hc. destruct (last out); simpl; lia. Qed.

Lemma playback_handleInterruption_off m s :
  interrupted m = false → handleInterruption m s = s.
Proof. unfold handleInterruption. by intros ->. Qed.

(** A step that neither makes a new call nor handles an interruption either
    starts nothing and does not move the cursor back, or starts one source at
    the cursor and moves the cursor to its end. *)
Lemma calm_step e s :
  newCall e = false → handlesInterruption e s = false →
  (started (step e s) = started s ∧ nextStartTimeRef s ≤ nextStartTimeRef (step e s)) ∨
  (∃ a, started (step e s) = started s ++ [a] ∧ when a = nextStartTimeRef s ∧
        nextStartTimeRef (step e s) = when a + duration a).
Proof.
  intros Hcall Hint.
  assert (Hsame : ∀ s', samePlayback s s' →
            started s' = started s ∧ nextStartTimeRef s ≤ nextStartTimeRef s').
  { intros s' (-> & _ & ->). split; [done | lia]. }
  destruct e as [gum initThrows t0| | | | | |m| | | | |k o]; try done; simpl.
  - left. apply Hsame, same_disconnectBegin.
  - left. apply Hsame, (same_disconnectBegin (set_mounted false s)).
  - left. apply Hsame. unfold samePlayback, onopen. by decide_tests.
  - left. by apply Hsame.
  - left. by apply Hsame.
  - left. simpl in Hint. unfold onmessage.
    destruct (from_option truthy false (base64Audio m) && negb (null (audioContextRef s))).
    + fields. split; [done | lia].
    + rewrite andb_true_r in Hint. rewrite playback_handleInterruption_off by done.
      split; [done | lia].
  - left. by apply Hsame.
  - left. apply Hsame. unfold samePlayback, onaudioprocess. by decide_tests.
  - left. apply Hsame. unfold samePlayback, videoInterval. by decide_tests.
  - left. by apply Hsame.
  - simpl in Hint.
    destruct (pending s !! k) as [t|] eqn:Hk; simpl; [|left; split; [done | lia]].
    destruct t as [| | | |m|p], o as [thr| |blob|[b64|]|res]; simpl;
      try (left; split; [done | lia]).
    + left. apply Hsame. unfold samePlayback, audioSendThen. by decide_tests.
    + left. apply Hsame. unfold samePlayback, toBlobCallback. by decide_tests.
    + left. apply Hsame. unfold samePlayback, blobToBase64Done. by decide_tests.
    + left. apply Hsame. unfold samePlayback, videoSendThen. by decide_tests.
    + unfold decodeAudioDataDone. rewrite playback_handleInterruption_off by done.
      destruct res as [d|]; fields.
      * right. eexists. by split_and!.
      * left. split; [done | lia].
    + left. apply Hsame.
      by destruct (same_disconnectAwaitDone p (Some thr)
                     (set_pending (delete k (pending s)) s)) as (? & ? & ?).
    + left. apply Hsame.
      by destruct (same_disconnectAwaitDone p None
                     (set_pending (delete k (pending s)) s)) as (? & ? & ?).
Qed.

(** X7.  Sources never overlap, whatever the order of the events: through a
    run that makes no new call and handles no interruption, with any number of
    chunks being decoded at once and their decodings settling in any order,
    every source that is started starts at the end of the source started
    before it, or later, the first of them at the cursor of the start or
    later; and the cursor ends at the end of the last one, or later. *)
Theorem sources_never_overlap (s : State) (events : list Event) :
  calm events s = true →
  let out := startedSince s (run events s) in
  started (run events s) = started s ++ out ∧
  inSequence (nextStartTimeRef s) out ∧
  endOf (nextStartTimeRef s) out ≤ nextStartTimeRef (run events s).
Proof.
  intros Hcalm.
  assert (Hrun : ∃ out, started (run events s) = started s ++ out ∧
                        inSequence (nextStartTimeRef s) out ∧
                        endOf (nextStartTimeRef s) out ≤ nextStartTimeRef (run events s)).
  { revert s Hcalm. induction events as [|e events IH]; intros s Hcalm.
    - exists []. simpl. rewrite app_nil_r. unfold endOf. simpl. split_and!; [done | done | lia].
    - simpl in Hcalm. apply andb_prop in Hcalm as [[Hcall Hint]%andb_prop Hcalm].
      apply negb_true_iff in Hcall, Hint.
      destruct (IH (step e s) Hcalm) as (out & Hout & Hseq & Hend). simpl.
      destruct (calm_step e s Hcall Hint) as [[Hsame Hle] | (a & Hnew & Ha & Hcursor)].
      + exists out. rewrite Hout, Hsame. split_and!; [done | |].
        * by eapply inSequence_earlier.
        * pose proof (endOf_earlier _ _ out Hle). lia.
      + exists (a :: out). rewrite Hout, Hnew, <- app_assoc. split_and!; [done | |].
        * simpl. split; [lia|]. by rewrite <- Hcursor.
        * rewrite endOf_cons, <- Hcursor. done. }
  destruct Hrun as (out' & Hout & Hseq & Hend). intros out.
  assert (out = out') as ->; [|done].
  unfold out, startedSince. by rewrite Hout, drop_app_length.
Qed.

Lemma sources_never_overlap_witness :
  calm outOfOrder connected = true ∧
  startedSince connected (run outOfOrder connected)
  = [{| node := 5; when := 7; duration := 10 |}; {| node := 6; when := 17; duration := 20 |}] ∧
  inSequence (nextStartTimeRef connected) (startedSince connected (run outOfOrder connected)).
Proof.
  assert (Hcalm : calm outOfOrder connected = true) by (vm_compute; reflexivity).
  split_and!; [exact Hcalm | vm_compute; reflexivity |].
  exact (proj1 (proj2 (sources_never_overlap connected outOfOrder Hcalm))).
Defined.

(** ** The outbound pipelines, stage by stage *)

(** What a stage of a pipeline reads and writes. *)
Lemma closing_run gap s :
  Forall (λ e, closing e = true) gap →
  pending (run gap s) = pending s ∧ sent (run gap s) = sent s ∧
  sessionPromiseRef (run gap s) = sessionPromiseRef s ∧
  isConnectedRef (run gap s) = (if gap is [] then isConnectedRef s else false).
Proof.
  intros Hgap. revert s. induction Hgap as [|e gap He _ IH]; intros s; [done|].
  simpl. destruct (IH (step e s)) as (-> & -> & -> & Hflag).
  rewrite Hflag. destruct e; try done; by destruct gap.
Qed.

Lemma settle_last o t code tasks s :
  pending s = tasks ++ [t] → resume t o = Some code →
  step (Settle (length tasks) o) s = code (set_pending tasks s).
Proof.
  intros Hpending Hcode.
  erewrite step_settle; [| by rewrite Hpending; apply list_lookup_middle | done].
  by rewrite Hpending, delete_middle, app_nil_r.
Qed.

Lemma settle_none o tasks s :
  pending s = tasks → step (Settle (length tasks) o) s = s.
Proof.
  intros Hpending. simpl. rewrite Hpending.
  by rewrite (lookup_ge_None_2 tasks (length tasks)) by lia.
Qed.

Lemma undefer t s : set_pending (pending s) (defer t s) = s.
Proof. by destruct s. Qed.

Lemma closing_defer t gap s :
  Forall (λ e, closing e = true) gap → run gap (defer t s) = defer t (run gap s).
Proof.
  intros Hgap. revert s. induction Hgap as [|e gap He _ IH]; intros s; [done|].
  simpl. rewrite <- IH. by destruct e.
Qed.

(** A task that settles right after it was left behind, or after the session
    went away in between. *)
Lemma settle_deferred o t code gap s :
  Forall (λ e, closing e = true) gap → resume t o = Some code →
  step (Settle (length (pending s)) o) (run gap (defer t s)) = code (run gap s).
Proof.
  intros Hgap Hcode. rewrite closing_defer by done.
  destruct (closing_run gap s Hgap) as (Hpending & _).
  rewrite <- Hpending. erewrite settle_last; [|done..]. by rewrite undefer.
Qed.

(** X8.  An audio buffer, from [onaudioprocess] to the [.then] callback.
    While the flag is up and a session promise is held: the buffer is sent
    once when the session answers, a send that throws is logged and changes
    nothing else, and a rejected promise is logged; in each case no task is
    left behind.  When the session closes or fails between the two stages the
    buffer is dropped without a trace.  When the flag is down or no promise is
    held at [onaudioprocess], nothing happens at all. *)
Theorem audio_buffer_fire_and_forget (s : State) (pcmBlob : Media) :
  (isConnectedRef s = true → is_Some (sessionPromiseRef s) →
     audioBuffer pcmBlob [] (SessionResolved false) s = sendRealtimeInput pcmBlob s ∧
     audioBuffer pcmBlob [] (SessionResolved true) s = log "Error sending audio input:" s ∧
     audioBuffer pcmBlob [] SessionRejected s = log "Session input error:" s ∧
     ∀ gap callThrows,
       Forall (λ e, closing e = true) gap → gap ≠ [] →
       audioBuffer pcmBlob gap (SessionResolved callThrows) s = run gap s) ∧
  (isConnectedRef s = false ∨ sessionPromiseRef s = None →
     ∀ o, audioBuffer pcmBlob [] o s = s).
Proof.
  split.
  - intros Hflag [p Hp].
    assert (Hfirst : step (AudioProcess pcmBlob) s = defer (AudioSendThen pcmBlob) s).
    { simpl. unfold onaudioprocess. by rewrite Hflag, Hp. }
    unfold audioBuffer. rewrite Hfirst. split_and!.
    + erewrite (settle_deferred _ _ _ []); [|done..]. simpl run.
      unfold audioSendThen. by rewrite Hflag.
    + erewrite (settle_deferred _ _ _ []); [|done..]. simpl run.
      unfold audioSendThen. by rewrite Hflag.
    + by erewrite (settle_deferred _ _ _ []).
    + intros gap thr Hgap Hne. erewrite settle_deferred; [|done..].
      destruct (closing_run gap s Hgap) as (_ & _ & _ & Hdown).
      unfold audioSendThen. rewrite Hdown. by destruct gap.
  - intros Hoff o.
    assert (Hfirst : step (AudioProcess pcmBlob) s = s).
    { simpl. unfold onaudioprocess. destruct Hoff as [-> | ->]; [done|].
      by rewrite orb_true_r. }
    unfold audioBuffer. rewrite Hfirst. simpl run.
    by apply settle_none.
Qed.

Lemma audio_buffer_fire_and_forget_witness :
  isConnectedRef connected = true ∧
  sent (audioBuffer {| mimeType := "audio/pcm;rate=16000"; data := "AAA=" |} []
          (SessionResolved false) connected)
  = [{| mimeType := "audio/pcm;rate=16000"; data := "AAA=" |}] ∧
  sent (audioBuffer {| mimeType := "audio/pcm;rate=16000"; data := "AAA=" |} [OnClose]
          (SessionResolved false) connected)
  = [].
Proof.
  assert (Hflag : isConnectedRef connected = true) by (vm_compute; reflexivity).
  assert (Hp : is_Some (sessionPromiseRef connected)) by (eexists; vm_compute; reflexivity).
  destruct (audio_buffer_fire_and_forget connected
              {| mimeType := "audio/pcm;rate=16000"; data := "AAA=" |})
    as [Hup _].
  destruct (Hup Hflag Hp) as (Hsent & _ & _ & Hdrop).
  split_and!; [exact Hflag | |].
  - rewrite Hsent. vm_compute. reflexivity.
  - rewrite Hdrop; [vm_compute; reflexivity | by repeat constructor | discriminate].
Defined.

(** X9.  A video frame, from the tick of the interval through [toBlob] and
    [blobToBase64] to the [.then] callback, while the flag is up and a session
    promise is held at the tick.  When the four stages run with nothing in
    between, the frame is sent once, as [image/jpeg] with the base64 data, and
    nothing else changes.  When the session closes or fails between any two
    stages, the frame is not sent.  In every case no task is left behind. *)
Theorem video_frame_pipeline (s : State) (base64Data : string)
    (gap1 gap2 gap3 : list Event) :
  isConnectedRef s = true → is_Some (sessionPromiseRef s) →
  Forall (λ e, closing e = true) (gap1 ++ gap2 ++ gap3) →
  pending (videoFrame base64Data gap1 gap2 gap3 s) = pending s ∧
  sent (videoFrame base64Data gap1 gap2 gap3 s)
  = (if gap1 ++ gap2 ++ gap3 is []
     then sent s ++ [{| mimeType := "image/jpeg"; data := base64Data |}]
     else sent s) ∧
  videoFrame base64Data [] [] [] s
  = sendRealtimeInput {| mimeType := "image/jpeg"; data := base64Data |} s.
Proof.
  intros Hflag [p Hp] Hgaps.
  apply Forall_app in Hgaps as [Hgap1 Hgaps]. apply Forall_app in Hgaps as [Hgap2 Hgap3].
  assert (Hfirst : step (VideoInterval true 4) s = defer ToBlobCallback s).
  { simpl. unfold videoInterval. by rewrite Hflag, Hp. }
  assert (Hall : ∀ g1 g2 g3,
            Forall (λ e, closing e = true) g1 → Forall (λ e, closing e = true) g2 →
            Forall (λ e, closing e = true) g3 →
            videoFrame base64Data g1 g2 g3 s
            = (if g1 ++ g2 ++ g3 is []
               then sendRealtimeInput {| mimeType := "image/jpeg"; data := base64Data |} s
               else run g3 (run g2 (run g1 s)))).
  { intros g1 g2 g3 H1 H2 H3. unfold videoFrame. rewrite Hfirst.
    destruct (closing_run g1 s H1) as (Hp1 & _ & Hs1 & Hf1).
    erewrite settle_deferred; [|done..]. unfold toBlobCallback. rewrite Hf1.
    destruct g1 as [|e1 g1]; cbn [andb app].
    - rewrite Hflag. simpl run at 2.
      destruct (closing_run g2 s H2) as (Hp2 & _ & Hs2 & Hf2).
      erewrite settle_deferred; [|done..]. unfold blobToBase64Done. rewrite Hs2, Hp.
      cbn [null]. rewrite <- Hp2.
      destruct (closing_run g3 (run g2 s) H3) as (Hp3 & _ & Hs3 & Hf3).
      erewrite settle_deferred; [|done..]. unfold videoSendThen. rewrite Hf3, Hf2.
      destruct g2 as [|e2 g2]; [|by destruct g3].
      destruct g3 as [|e3 g3]; [|done]. simpl. by rewrite Hflag.
    - set (s1 := run (e1 :: g1) s) in *.
      destruct (closing_run g2 s1 H2) as (Hp2 & _ & Hs2 & Hf2).
      rewrite (settle_none _ (pending s) (run g2 s1)) by (by rewrite Hp2, Hp1).
      destruct (closing_run g3 (run g2 s1) H3) as (Hp3 & _ & Hs3 & Hf3).
      by rewrite (settle_none _ (pending s) (run g3 (run g2 s1)))
        by (by rewrite Hp3, Hp2, Hp1). }
  rewrite Hall by done. split_and!.
  - destruct (gap1 ++ gap2 ++ gap3); [done|].
    destruct (closing_run gap1 s Hgap1) as (Hp1 & _).
    destruct (closing_run gap2 (run gap1 s) Hgap2) as (Hp2 & _).
    destruct (closing_run gap3 (run gap2 (run gap1 s)) Hgap3) as (Hp3 & _).
    by rewrite Hp3, Hp2, Hp1.
  - destruct (gap1 ++ gap2 ++ gap3); [done|].
    destruct (closing_run gap1 s Hgap1) as (_ & Hs1 & _).
    destruct (closing_run gap2 (run gap1 s) Hgap2) as (_ & Hs2 & _).
    destruct (closing_run gap3 (run gap2 (run gap1 s)) Hgap3) as (_ & Hs3 & _).
    by rewrite Hs3, Hs2, Hs1.
  - by rewrite (Hall [] [] []).
Qed.

Lemma video_frame_pipeline_witness :
  isConnectedRef connected = true ∧ is_Some (sessionPromiseRef connected) ∧
  sent (videoFrame "/9j/4AAQ" [] [] [] connected)
  = [{| mimeType := "image/jpeg"; data := "/9j/4AAQ" |}] ∧
  sent (videoFrame "/9j/4AAQ" [] [OnError] [] connected) = [].
Proof.
  assert (Hflag : isConnectedRef connected = true) by (vm_compute; reflexivity).
  assert (Hp : is_Some (sessionPromiseRef connected)) by (eexists; vm_compute; reflexivity).
  split_and!; [exact Hflag | exact Hp | |].
  - destruct (video_frame_pipeline connected "/9j/4AAQ" [] [] [] Hflag Hp)
      as (_ & -> & _); [by constructor | vm_compute; reflexivity].
  - destruct (video_frame_pipeline connected "/9j/4AAQ" [] [OnError] [] Hflag Hp)
      as (_ & -> & _); [by repeat constructor | vm_compute; reflexivity].
Defined.

(** ** A hang-up while the session is still opening *)

(** X14.  The user hangs up while the session promise is pending, and the
    session opens before the awaited promise settles.  When [disconnect] has
    run to its end the session was closed (if the call went through), every
    ref is released, the video timer that [onopen] had just armed included,
    and the state is [DISCONNECTED]; the guard flag, lowered before the await
    and raised by [onopen], is still up.  Even so no new send starts, because
    the audio callback and the video tick also test the session promise, which
    is gone; [onclose] then lowers the flag. *)
Theorem hang_up_while_opening (s : State) (p : positive) (callThrows : bool) :
  sessionPromiseRef s = Some p →
  let opened := run [ClickHangUp; OnOpen] s in
  let s' := step (Settle (length (pending s)) (SessionResolved callThrows)) opened in
  allReleased s' ∧ handedBack opened s' ∧ connectionState s' = DISCONNECTED ∧
  (callThrows = false → Session p ∈ released s') ∧
  isConnectedRef s' = true ∧
  (∀ pcmBlob, step (AudioProcess pcmBlob) s' = s') ∧
  (∀ ctx readyState, step (VideoInterval ctx readyState) s' = s') ∧
  isConnectedRef (step OnClose s') = false.
Proof.
  intros Hp opened s'.
  assert (Hbegin : step ClickHangUp s
                   = defer (DisconnectAwaitDone p) (set_isConnectedRef false s)).
  { simpl. unfold disconnectBegin. fields. by rewrite Hp. }
  assert (Hopened : pending opened = pending s ++ [DisconnectAwaitDone p] ∧
                    isConnectedRef opened = true).
  { unfold opened, run. cbn [foldl]. rewrite Hbegin. simpl. unfold onopen. fields.
    by destruct (mounted s). }
  destruct Hopened as (Hpending & Hflag).
  set (s2 := set_sessionPromiseRef None
               (if callThrows
                then log "Error closing session" (set_pending (pending s) opened)
                else release (Session p) (set_pending (pending s) opened))).
  assert (Hs' : s' = disconnectRest s2).
  { unfold s'. erewrite settle_last; [|done..]. unfold disconnectAwaitDone, s2.
    by destruct callThrows. }
  destruct (disconnectRest_released s2) as (Hall & Hback & Hkeep & Hp2 & Hcs & Hflag2).
  assert (Hfacts : sessionPromiseRef s2 = None ∧ isConnectedRef s2 = true ∧
                   streamRef s2 = streamRef opened ∧
                   inputAudioContextRef s2 = inputAudioContextRef opened ∧
                   audioContextRef s2 = audioContextRef opened ∧
                   videoIntervalRef s2 = videoIntervalRef opened ∧
                   (callThrows = false → Session p ∈ released s2)).
  { unfold s2. destruct callThrows; fields; rewrite ?Hflag; split_and!; try done.
    intros _. unfold release. fields. rewrite elem_of_app, list_elem_of_singleton. auto. }
  destruct Hfacts as (P2 & F2 & S2 & I2 & O2 & V2 & R2).
  assert (Hpromise : sessionPromiseRef s' = None) by (by rewrite Hs', Hp2).
  assert (Hup : isConnectedRef s' = true) by (by rewrite Hs', Hflag2).
  rewrite <- Hs' in Hall, Hback, Hkeep, Hcs.
  split_and!.
  - unfold allReleased in *. fields. rewrite Hpromise. tauto.
  - unfold handedBack in *. by rewrite S2, I2, O2, V2 in Hback.
  - done.
  - intros Hthr. apply Hkeep. auto.
  - done.
  - intros blob. simpl. unfold onaudioprocess. by rewrite Hpromise, orb_true_r.
  - intros c r. simpl. unfold videoInterval. rewrite Hpromise.
    by destruct (negb (isConnectedRef s')), (negb c).
  - done.
Qed.

Lemma hang_up_while_opening_witness :
  let s := step (ClickCall (Some 7%positive) false 0) (initial "key") in
  let s' := step (Settle (length (pending s)) (SessionResolved false))
              (run [ClickHangUp; OnOpen] s) in
  sessionPromiseRef s = Some 3%positive ∧
  isConnectedRef s' = true ∧ connectionState s' = DISCONNECTED.
Proof.
  intros s s'.
  assert (Hp : sessionPromiseRef s = Some 3%positive) by (vm_compute; reflexivity).
  split; [exact Hp|].
  pose proof (hang_up_while_opening s 3 false Hp) as Hfacts.
  cbv zeta in Hfacts. fold s' in Hfacts.
  destruct Hfacts as (_ & _ & Hcs & _ & Hup & _).
  split; [exact Hup | exact Hcs].
Defined.

(** ** After the component is unmounted *)

Lemma timer_disconnectRest s :
  mounted (disconnectRest s) = mounted s ∧ videoIntervalRef (disconnectRest s) = None.
Proof.
  destruct (disconnectRest_released s) as (Hall & _).
  split; [|unfold allReleased in Hall; fields; tauto].
  unfold disconnectRest, stopCamera. by decide_tests.
Qed.

Lemma timer_handleInterruption m s :
  mounted (handleInterruption m s) = mounted s ∧
  videoIntervalRef (handleInterruption m s) = videoIntervalRef s.
Proof. unfold handleInterruption. by decide_tests. Qed.

Lemma timer_resume t o code s :
  resume t o = Some code → mounted s = false → videoIntervalRef s = None →
  mounted (code s) = false ∧ videoIntervalRef (code s) = None.
Proof.
  intros Hcode Hm Hv.
  destruct t as [| | | |m|p], o as [thr| |blob|[b64|]|res]; simpl in Hcode; simplify_eq;
    try done.
  - unfold audioSendThen. by decide_tests.
  - unfold toBlobCallback. by decide_tests.
  - unfold blobToBase64Done. by decide_tests.
  - unfold videoSendThen. by decide_tests.
  - unfold decodeAudioDataDone.
    set (s1 := match res with Some _ => _ | None => _ end).
    destruct (timer_handleInterruption m s1) as (-> & ->). unfold s1. by destruct res.
  - unfold disconnectAwaitDone.
    set (s1 := set_sessionPromiseRef None _).
    destruct (timer_disconnectRest s1) as (-> & ->). unfold s1. by destruct thr.
  - unfold disconnectAwaitDone.
    set (s1 := set_sessionPromiseRef None _).
    by destruct (timer_disconnectRest s1) as (-> & ->).
Qed.

Lemma timer_step e s :
  mounted s = false → videoIntervalRef s = None →
  mounted (step e s) = false ∧ videoIntervalRef (step e s) = None.
Proof.
  intros Hm Hv. destruct e as [gum initThrows t0| | | | | |m| | | | |k o]; simpl; try done.
  - unfold connectToLiveApi, startCamera.
    by destruct (truthy (apiKey s)), (streamRef s), gum, initThrows.
  - unfold disconnectBegin. fields. destruct (sessionPromiseRef s); [done|].
    by destruct (timer_disconnectRest (set_isConnectedRef false s)) as (-> & ->).
  - unfold disconnectBegin. fields. destruct (sessionPromiseRef s); [done|].
    by destruct (timer_disconnectRest (set_isConnectedRef false (set_mounted false s)))
      as (-> & ->).
  - unfold onopen. fields. by rewrite Hm.
  - unfold onmessage. case_match; [done|].
    by destruct (timer_handleInterruption m s) as (-> & ->).
  - unfold onaudioprocess. by decide_tests.
  - unfold videoInterval. by decide_tests.
  - destruct (pending s !! k ≫= λ t, resume t o) as [code|] eqn:Hk; [|done].
    apply bind_Some in Hk as (t & _ & Hcode).
    by apply (timer_resume t o code).
Qed.

Lemma timer_run events s :
  mounted s = false → videoIntervalRef s = None →
  mounted (run events s) = false ∧ videoIntervalRef (run events s) = None.
Proof.
  revert s. induction events as [|e events IH]; intros s Hm Hv; [done|].
  destruct (timer_step e s Hm Hv) as (Hm' & Hv'). by apply IH.
Qed.

Lemma mounted_resume t o code s :
  resume t o = Some code → mounted (code s) = mounted s.
Proof.
  intros Hcode.
  destruct t as [| | | |m|p], o as [thr| |blob|[b64|]|res]; simpl in Hcode; simplify_eq;
    try done.
  - unfold audioSendThen. by decide_tests.
  - unfold toBlobCallback. by decide_tests.
  - unfold blobToBase64Done. by decide_tests.
  - unfold videoSendThen. by decide_tests.
  - unfold decodeAudioDataDone.
    set (s1 := match res with Some _ => _ | None => _ end).
    destruct (timer_handleInterruption m s1) as (-> & _). unfold s1. by destruct res.
  - unfold disconnectAwaitDone.
    set (s1 := set_sessionPromiseRef None _).
    destruct (timer_disconnectRest s1) as (-> & _). unfold s1. by destruct thr.
  - unfold disconnectAwaitDone.
    set (s1 := set_sessionPromiseRef None _).
    by destruct (timer_disconnectRest s1) as (-> & _).
Qed.

(** Nothing mounts the component again. *)
Lemma mounted_stays_down e s : mounted s = false → mounted (step e s) = false.
Proof.
  intros Hm. destruct e as [gum initThrows t0| | | | | |m| | | | |k o]; simpl; try done.
  - unfold connectToLiveApi, startCamera.
    by destruct (truthy (apiKey s)), (streamRef s), gum, initThrows.
  - unfold disconnectBegin. fields. destruct (sessionPromiseRef s); [done|].
    by destruct (timer_disconnectRest (set_isConnectedRef false s)) as (-> & _).
  - unfold disconnectBegin. fields. destruct (sessionPromiseRef s); [done|].
    by destruct (timer_disconnectRest (set_isConnectedRef false (set_mounted false s)))
      as (-> & _).
  - unfold onopen. fields. by rewrite Hm.
  - unfold onmessage. case_match; [done|].
    by destruct (timer_handleInterruption m s) as (-> & _).
  - unfold onaudioprocess. by decide_tests.
  - unfold videoInterval. by decide_tests.
  - destruct (pending s !! k ≫= λ t, resume t o) as [code|] eqn:Hk; [|done].
    apply bind_Some in Hk as (t & _ & Hcode).
    by rewrite (mounted_resume t o code).
Qed.

Lemma mounted_run events s : mounted s = false → mounted (run events s) = false.
Proof.
  revert s. induction events as [|e events IH]; intros s Hm; [done|].
  apply IH. by apply mounted_stays_down.
Qed.

(** The flag after the session has opened or gone away: up when it opened
    last. *)
Lemma session_flag gap s :
  Forall (λ e, sessionEvent e = true) gap →
  isConnectedRef (run gap s) = from_option isOnOpen (isConnectedRef s) (last gap).
Proof.
  induction gap as [|e gap IH] using rev_ind; intros Hgap; [done|].
  apply Forall_app in Hgap as (_ & He). apply Forall_inv in He.
  unfold run. rewrite foldl_app, last_snoc. cbn [foldl from_option].
  destruct e; simpl in He; try done. simpl. unfold onopen. fields.
  by destruct (mounted (foldl (λ s e, step e s) s gap)).
Qed.

(** The start of the cleanup: [disconnect] runs to its end, or to its
    [await]. *)
Lemma unmount_begin s :
  mounted (step Unmount s) = false ∧ isConnectedRef (step Unmount s) = false ∧
  match sessionPromiseRef s with
  | Some p => step Unmount s
              = defer (DisconnectAwaitDone p) (set_isConnectedRef false (set_mounted false s))
  | None => step Unmount s = disconnectRest (set_isConnectedRef false (set_mounted false s))
  end.
Proof.
  simpl. unfold disconnectBegin. fields.
  destruct (sessionPromiseRef s) as [p|]; [done|].
  destruct (timer_disconnectRest (set_isConnectedRef false (set_mounted false s))) as (-> & _).
  by rewrite flag_disconnectRest.
Qed.

(** The last part of [disconnect], from a state that is no longer mounted. *)
Lemma disconnectRest_unmounted s2 :
  mounted s2 = false → sessionPromiseRef s2 = None →
  let s' := disconnectRest s2 in
  allReleased s' ∧ handedBack s2 s' ∧ connectionState s' = DISCONNECTED ∧
  isConnectedRef s' = isConnectedRef s2 ∧
  (∀ r, r ∈ released s2 → r ∈ released s') ∧
  (∀ pcmBlob, step (AudioProcess pcmBlob) s' = s') ∧
  (∀ ctx readyState, step (VideoInterval ctx readyState) s' = s') ∧
  ∀ events, mounted (run events s') = false ∧ videoIntervalRef (run events s') = None.
Proof.
  intros Hm Hp s'.
  destruct (disconnectRest_released s2) as (Hall & Hback & Hkeep & Hp2 & Hcs & Hflag).
  destruct (timer_disconnectRest s2) as (Hm2 & Hv2).
  fold s' in Hall, Hback, Hkeep, Hp2, Hcs, Hflag, Hm2, Hv2.
  assert (Hpromise : sessionPromiseRef s' = None) by (by rewrite Hp2).
  split_and!; try done.
  - unfold allReleased in *. fields. rewrite Hpromise. tauto.
  - intros blob. simpl. unfold onaudioprocess. by rewrite Hpromise, orb_true_r.
  - intros c r. simpl. unfold videoInterval. rewrite Hpromise.
    by destruct (negb (isConnectedRef s')), (negb c).
  - intros events. apply timer_run; [by rewrite Hm2|done].
Qed.

(** X16.  The cleanup of the component runs [disconnect].  When no session
    promise is held, [disconnect] runs to its end at once: every ref is
    released, what the refs held was handed back, the flag is down and the
    state is [DISCONNECTED].  Otherwise it lowers the flag and waits for the
    promise.  Whatever happens in between, when the awaited promise settles
    and [disconnect] runs to its end, every ref is released, what the refs
    held at that moment is handed back, the session is closed if the call goes
    through, and the state is [DISCONNECTED].  The flag is not touched again:
    it is left as the events in between left it, so after events of the
    session only it is up exactly when the session opened last.  Even then no
    new send starts, because the audio callback and the video tick also test
    the session promise, which is gone.  After either end no video timer is
    armed again, whatever follows: a session that opens after the unmount
    finds no video element to capture.  The statement is about the state in
    which [disconnect] ends; it does not say that the refs stay released. *)
Theorem unmount_tears_down (s : State) (gap : list Event) :
  let s1 := run gap (step Unmount s) in
  mounted s1 = false ∧
  (sessionPromiseRef s = None →
     let s' := step Unmount s in
     allReleased s' ∧ handedBack s s' ∧ connectionState s' = DISCONNECTED ∧
     isConnectedRef s' = false ∧
     ∀ events, mounted (run events s') = false ∧ videoIntervalRef (run events s') = None) ∧
  (∀ p, sessionPromiseRef s = Some p →
     pending (step Unmount s) = pending s ++ [DisconnectAwaitDone p] ∧
     isConnectedRef (step Unmount s) = false) ∧
  (Forall (λ e, sessionEvent e = true) gap →
     isConnectedRef s1 = from_option isOnOpen false (last gap)) ∧
  (∀ k p o, pending s1 !! k = Some (DisconnectAwaitDone p) →
     o = SessionRejected ∨ (∃ callThrows, o = SessionResolved callThrows) →
     let s' := step (Settle k o) s1 in
     allReleased s' ∧ handedBack s1 s' ∧ connectionState s' = DISCONNECTED ∧
     isConnectedRef s' = isConnectedRef s1 ∧
     (o = SessionResolved false → Session p ∈ released s') ∧
     (∀ pcmBlob, step (AudioProcess pcmBlob) s' = s') ∧
     (∀ ctx readyState, step (VideoInterval ctx readyState) s' = s') ∧
     ∀ events, mounted (run events s') = false ∧ videoIntervalRef (run events s') = None).
Proof.
  intros s1.
  destruct (unmount_begin s) as (Hm & Hflag & Hbegin).
  assert (Hm1 : mounted s1 = false) by (by apply mounted_run).
  split_and!.
  - done.
  - intros Hp. rewrite Hp in Hbegin. rewrite Hbegin.
    destruct (disconnectRest_unmounted (set_isConnectedRef false (set_mounted false s)))
      as (Hall & Hback & Hcs & Hflag' & _ & _ & _ & Hlater); [done..|].
    intros s'. split_and!; [exact Hall | exact Hback | exact Hcs | exact Hflag' | exact Hlater].
  - intros p Hp. rewrite Hp in Hbegin. split; [by rewrite Hbegin|done].
  - intros Hgap. unfold s1. by rewrite session_flag, Hflag.
  - intros k p o Hk Ho.
    set (s2 := λ session : option bool,
           set_sessionPromiseRef None
             (match session with
              | Some false => release (Session p) (set_pending (delete k (pending s1)) s1)
              | _ => log "Error closing session" (set_pending (delete k (pending s1)) s1)
              end)).
    assert (Hrun : ∀ session,
              resume (DisconnectAwaitDone p) o = Some (disconnectAwaitDone p session) →
              step (Settle k o) s1 = disconnectRest (s2 session)).
    { intros session Hcode. rewrite (step_settle k o _ _ s1 Hk Hcode).
      unfold disconnectAwaitDone, s2. by destruct session as [[|]|]. }
    assert (Hfacts : ∀ session,
              mounted (s2 session) = false ∧ sessionPromiseRef (s2 session) = None ∧
              isConnectedRef (s2 session) = isConnectedRef s1 ∧
              streamRef (s2 session) = streamRef s1 ∧
              inputAudioContextRef (s2 session) = inputAudioContextRef s1 ∧
              audioContextRef (s2 session) = audioContextRef s1 ∧
              videoIntervalRef (s2 session) = videoIntervalRef s1 ∧
              (session = Some false → Session p ∈ released (s2 session))).
    { intros session. unfold s2. destruct session as [[|]|]; fields; split_and!; try done.
      intros _. unfold release. fields. rewrite elem_of_app, list_elem_of_singleton. auto. }
    assert (Hend : ∃ session, step (Settle k o) s1 = disconnectRest (s2 session) ∧
                              (o = SessionResolved false → session = Some false)).
    { destruct Ho as [-> | [thr ->]].
      - exists None. split; [by apply Hrun|done].
      - exists (Some thr). split; [by apply Hrun|]. by intros [= ->]. }
    destruct Hend as (session & -> & Hclosed).
    destruct (Hfacts session) as (M2 & P2 & F2 & S2 & I2 & O2 & V2 & R2).
    destruct (disconnectRest_unmounted (s2 session) M2 P2)
      as (Hall & Hback & Hcs & Hflag' & Hkeep & Haudio & Hvideo & Hlater).
    intros s'. split_and!;
      [exact Hall | | exact Hcs | | | exact Haudio | exact Hvideo | exact Hlater].
    + unfold handedBack in *. by rewrite S2, I2, O2, V2 in Hback.
    + unfold s'. by rewrite Hflag'.
    + intros Hthr. apply Hkeep, R2, Hclosed, Hthr.
Qed.

Lemma unmount_tears_down_witness :
  let s1 := run [OnOpen] (step Unmount connected) in
  let s' := step (Settle 0 (SessionResolved false)) s1 in
  isConnectedRef (step Unmount (initial "key")) = false ∧
  isConnectedRef s1 = true ∧ isConnectedRef s' = true ∧
  connectionState s' = DISCONNECTED ∧ Session 3%positive ∈ released s' ∧
  videoIntervalRef (run [OnOpen] s') = None.
Proof.
  intros s1 s'. split.
  { pose proof (unmount_tears_down (initial "key") []) as H. cbv zeta in H.
    destruct H as (_ & Hatonce & _).
    exact (proj1 (proj2 (proj2 (proj2 (Hatonce eq_refl))))). }
  pose proof (unmount_tears_down connected [OnOpen]) as H.
  cbv zeta in H. fold s1 in H.
  destruct H as (_ & _ & Hwaits & Hup & Hsettle).
  assert (Hgap : Forall (λ e, sessionEvent e = true) [OnOpen]) by (by repeat constructor).
  assert (Hflag : isConnectedRef s1 = true) by (by rewrite (Hup Hgap)).
  assert (Hp : sessionPromiseRef connected = Some 3%positive) by (vm_compute; reflexivity).
  destruct (Hwaits 3%positive Hp) as (_ & Hdown).
  assert (Hk : pending s1 !! 0%nat = Some (DisconnectAwaitDone 3%positive))
    by (vm_compute; reflexivity).
  destruct (Hsettle 0%nat 3%positive (SessionResolved false) Hk
              (or_intror (ex_intro _ false eq_refl)))
    as (_ & _ & Hcs & Hsame & Hclosed & _ & _ & Hlater).
  fold s' in Hcs, Hsame, Hclosed, Hlater.
  split_and!; [exact Hflag | exact (eq_trans Hsame Hflag) | exact Hcs | exact (Hclosed eq_refl)
              | exact (proj2 (Hlater [OnOpen]))].
Defined.


(** ** The end of a source *)

Lemma set_sourceNodesRef_same s : set_sourceNodesRef (sourceNodesRef s) s = s.
Proof. by destruct s. Qed.

Lemma onended_absent source s : source ∉ sourceNodesRef s → onended source s = s.
Proof.
  intros Hout. unfold onended.
  rewrite difference_disjoint_L by (by apply disjoint_singleton_r).
  apply set_sourceNodesRef_same.
Qed.

Lemma interruption_step e s :
  handlesInterruption e s = true →
  ∃ m s0, interrupted m = true ∧ step e s = handleInterruption m s0.
Proof.
  intros Hint. destruct e as [| | | | | |m| | | | |k o]; try done; simpl in Hint.
  - apply andb_prop in Hint as [Hm Hskip]. exists m, s. split; [done|].
    simpl. unfold onmessage. by apply negb_true_iff in Hskip as ->.
  - destruct o as [| | | |res]; try done.
    destruct (pending s !! k) as [[| | | |m|]|] eqn:Hk; try done.
    erewrite step_settle by done. unfold decodeAudioDataDone. by eexists m, _.
Qed.

(** X10.  The ['ended'] listener removes the source from the set and touches
    nothing else, and it tolerates a source that is not in the set: then the
    state stays as it is.  So the listener may fire twice, and it may fire for
    a source that an interruption has stopped and flushed from the set. *)
Theorem ended_listener_tolerant (s : State) (source : positive) :
  sourceNodesRef (step (OnEnded source) s) = sourceNodesRef s ∖ {[source]} ∧
  (source ∉ sourceNodesRef s → step (OnEnded source) s = s) ∧
  step (OnEnded source) (step (OnEnded source) s) = step (OnEnded source) s ∧
  (∀ e, handlesInterruption e s = true →
        step (OnEnded source) (step e s) = step e s).
Proof.
  split_and!.
  - done.
  - apply onended_absent.
  - simpl. apply onended_absent. simpl.
    rewrite elem_of_difference, elem_of_singleton. tauto.
  - intros e He. destruct (interruption_step e s He) as (m & s0 & Hm & ->).
    destruct (handleInterruption_flush m s0 Hm) as (Hempty & _).
    simpl. apply onended_absent. rewrite Hempty. apply not_elem_of_empty.
Qed.

Lemma ended_listener_tolerant_witness :
  handlesInterruption (OnMessage interruptionMessage) playing = true ∧
  step (OnEnded 5) (step (OnMessage interruptionMessage) playing)
  = step (OnMessage interruptionMessage) playing.
Proof.
  assert (H : handlesInterruption (OnMessage interruptionMessage) playing = true)
    by (vm_compute; reflexivity).
  split; [exact H|].
  destruct (ended_listener_tolerant playing 5) as (_ & _ & _ & Hflush).
  exact (Hflush _ H).
Defined.

End LiveViewMoreProofs.

(** * Further facts about the text chat *)

Module DeepChatTalkProofs.
Import DeepChat DeepChatTalk DeepChatProofs.

(** ** Whose turn it is *)

Lemma other_other r : other (other r) = r.
Proof. by destruct r. Qed.

Lemma turns_even k r : Nat.even k = true → Nat.iter k other r = r.
Proof.
  intros [j ->]%Nat.even_spec. induction j as [|j IH]; [done|].
  replace (2 * S j)%nat with (S (S (2 * j))) by lia. simpl in *. by rewrite IH, other_other.
Qed.

Lemma turns_odd k r : Nat.odd k = true → Nat.iter k other r = other r.
Proof.
  intros [j ->]%Nat.odd_spec. replace (2 * j + 1)%nat with (S (2 * j)) by lia.
  simpl. rewrite turns_even; [done|]. apply Nat.even_spec. by exists j.
Qed.

Lemma alternate_app r rs1 rs2 :
  alternate r (rs1 ++ rs2) ↔ alternate r rs1 ∧ alternate (Nat.iter (length rs1) other r) rs2.
Proof.
  revert r. induction rs1 as [|x rs1 IH]; intros r; simpl; [tauto|].
  rewrite IH, <- Nat.iter_succ_r. simpl. tauto.
Qed.

Lemma alternate_drop k r rs : alternate r rs → alternate (Nat.iter k other r) (drop k rs).
Proof.
  revert r rs. induction k as [|k IH]; intros r rs Hrs; [by rewrite drop_0|].
  destruct rs as [|x rs]; [done|]. destruct Hrs as [_ Hrs].
  rewrite Nat.iter_succ_r. simpl. by apply IH.
Qed.

Lemma role_turn (ms : list Message) : GenAI.role <$> (turn <$> ms) = role <$> ms.
Proof. rewrite <- list_fmap_compose. by apply list_fmap_ext. Qed.

(** The messages shown: the roles take turns from the welcome of the model
    on, and the model has spoken last. *)
Lemma request_wellFormed (ms : list Message) (typed : string) :
  alternate model (role <$> ms) → Nat.odd (length ms) = true →
  wellFormed (request ms typed) ∧
  (length (GenAI.contents (request ms typed)) ≤ 7)%nat.
Proof.
  intros Halt Hodd. unfold wellFormed, request. cbn [GenAI.contents].
  rewrite fmap_cons, fmap_app, role_turn. cbn [fmap list_fmap GenAI.role].
  assert (Hk : Nat.even (length ms - 5) = true).
  { apply Nat.odd_spec in Hodd as [j Hj]. apply Nat.even_spec.
    exists (j - 2)%nat. lia. }
  assert (Hlen : Nat.odd (length (slice_last 5 ms)) = true).
  { rewrite slice_last_length. destruct (decide (5 ≤ length ms)%nat).
    - by rewrite Nat.min_l.
    - by rewrite Nat.min_r by lia. }
  split_and!.
  - split; [done|]. change (other user) with model. apply alternate_app. split.
    + unfold slice_last. rewrite fmap_drop.
      rewrite <- (turns_even (length ms - 5) model Hk). by apply alternate_drop.
    + rewrite length_fmap, turns_odd by done. done.
  - by rewrite app_comm_cons, last_snoc.
  - rewrite length_cons, length_app, length_fmap, slice_last_length.
    cbn [length]. lia.
Qed.

Lemma exchange_messages x s :
  (exchange x s = setInput (typed x) s ∧
   (blank (typed x) = true ∨ truthy (apiKey s) = false)) ∨
  (blank (typed x) = false ∧ truthy (apiKey s) = true ∧
   ∃ userMsg reply,
     messages (exchange x s) = messages s ++ [userMsg; reply] ∧
     role userMsg = user ∧ role reply = model ∧
     text userMsg = typed x ∧
     id userMsg = pretty (sentAt x) ∧
     id reply = pretty (match response x with
                        | Answer _ => settledAt x + 1
                        | Failure => settledAt x
                        end) ∧
     requests (exchange x s) = requests s ++ [request (messages s) (typed x)] ∧
     input (exchange x s) = "" ∧ isLoading (exchange x s) = false).
Proof.
  unfold exchange. cbn [input setInput apiKey]. rewrite truthy_trim.
  destruct (blank (typed x)) eqn:Hblank; cbn [negb orb]; [left; auto|].
  destruct (truthy (apiKey s)) eqn:Hkey; cbn [negb]; [|left; auto].
  right. split_and!; [done..|].
  unfold handleSend. cbn [input setInput apiKey]. rewrite truthy_trim, Hblank, Hkey.
  cbn [negb orb].
  destruct (response x) as [[t|]|]; simpl; eexists _, _;
    rewrite <- app_assoc; by split_and!.
Qed.

(** X11.  An exchange, the send and the settled request with nothing in
    between.  With a blank input or without a key it only leaves the input in
    the field.  Otherwise it appends two messages, the one of the user with
    the text as typed and then one of the model, issues one request, empties
    the field and lowers the loading flag.  The two messages have different
    ids when the request was answered and the clock did not go back, or when
    the request failed at a later reading of the clock. *)
Theorem exchange_appends_two (x : Exchange) (s : State) :
  (blank (typed x) = true ∨ truthy (apiKey s) = false →
     exchange x s = setInput (typed x) s) ∧
  (blank (typed x) = false → truthy (apiKey s) = true →
     ∃ userMsg reply,
       messages (exchange x s) = messages s ++ [userMsg; reply] ∧
       role userMsg = user ∧ role reply = model ∧ text userMsg = typed x ∧
       length (requests (exchange x s)) = S (length (requests s)) ∧
       input (exchange x s) = "" ∧ isLoading (exchange x s) = false ∧
       ((sentAt x ≤ settledAt x ∧ response x ≠ Failure) ∨ sentAt x < settledAt x →
        id userMsg ≠ id reply)).
Proof.
  destruct (exchange_messages x s) as [[Hsame Hguard] | (Hblank & Hkey & Hgrow)].
  - split; [done|]. intros Hblank Hkey. destruct Hguard; congruence.
  - split; [intros [?|?]; congruence|]. intros _ _.
    destruct Hgrow as (u & r & Hm & Hu & Hr & Ht & Hidu & Hidr & Hreq & Hin & Hload).
    exists u, r. rewrite Hreq, length_app. simpl.
    split_and!; [done | done | done | done | lia | done | done |].
    intros Hclock. rewrite Hidu, Hidr. intros Heq%(inj pretty).
    destruct (response x); [lia|]. destruct Hclock as [[_ ?]|?]; [done | lia].
Qed.

Lemma exchange_appends_two_witness :
  blank "hello" = false ∧ truthy (apiKey (initial "key")) = true ∧
  length (messages (exchange {| typed := "hello"; sentAt := 10;
                                response := Answer (Some "hi"); settledAt := 10 |}
                      (initial "key"))) = 3%nat.
Proof.
  split_and!; [reflexivity.. |].
  destruct (exchange_appends_two {| typed := "hello"; sentAt := 10;
                                    response := Answer (Some "hi"); settledAt := 10 |}
              (initial "key")) as (_ & Hgrow).
  destruct (Hgrow eq_refl eq_refl) as (u & r & -> & _). reflexivity.
Defined.

(** X12.  The requests of a conversation: through any number of exchanges
    from the start, each settled before the next, the contents of every
    request take turns between [user] and [model], begin with the system
    context of the user and end with the new turn of the user, and are seven
    at most.  The messages shown take turns too, from the
    welcome of the model on, two for each request. *)
Theorem requests_take_turns (key : string) (xs : list Exchange) :
  let s := talk xs (initial key) in
  Forall wellFormed (requests s) ∧
  Forall (λ r, (length (GenAI.contents r) ≤ 7)%nat) (requests s) ∧
  alternate model (role <$> messages s) ∧
  length (messages s) = (1 + 2 * length (requests s))%nat.
Proof.
  assert (Hrun : ∀ s,
            Forall wellFormed (requests s) →
            Forall (λ r, (length (GenAI.contents r) ≤ 7)%nat) (requests s) →
            alternate model (role <$> messages s) →
            length (messages s) = (1 + 2 * length (requests s))%nat →
            Forall wellFormed (requests (talk xs s)) ∧
            Forall (λ r, (length (GenAI.contents r) ≤ 7)%nat) (requests (talk xs s)) ∧
            alternate model (role <$> messages (talk xs s)) ∧
            length (messages (talk xs s)) = (1 + 2 * length (requests (talk xs s)))%nat).
  { induction xs as [|x xs IH]; intros s Hwf Hmax Halt Hlen; [done|].
    simpl. apply IH;
      destruct (exchange_messages x s) as [[-> _] | (_ & _ & Hgrow)]; try done;
      destruct Hgrow as (u & r & Hm & Hu & Hr & _ & _ & _ & Hreq & _);
      assert (Hodd : Nat.odd (length (messages s)) = true)
        by (apply Nat.odd_spec; exists (length (requests s)); rewrite Hlen; lia);
      destruct (request_wellFormed (messages s) (typed x) Halt Hodd) as [Hnew Hseven].
    - rewrite Hreq. apply Forall_app. split; [done | by constructor].
    - rewrite Hreq. apply Forall_app. split; [done | by constructor].
    - rewrite Hm, fmap_app. apply alternate_app. split; [done|].
      rewrite length_fmap, turns_odd by done. simpl. by rewrite Hu, Hr.
    - rewrite Hm, Hreq, !length_app. simpl. lia. }
  apply Hrun; [by constructor | by constructor | done | done].
Qed.

Lemma requests_take_turns_witness :
  Forall wellFormed (requests (talk someTalk (initial "key"))) ∧
  length (requests (talk someTalk (initial "key"))) = 4%nat.
Proof.
  split; [|reflexivity].
  exact (proj1 (requests_take_turns "key" someTalk)).
Defined.

(** What [handleSend] does to the requests and to the loading flag: nothing,
    or one request more and the flag up. *)
Lemma handleSend_requests now s :
  handleSend now s = s ∨
  (requests (handleSend now s) = requests s ++ [request (messages s) (input s)] ∧
   isLoading (handleSend now s) = true).
Proof.
  unfold handleSend. destruct (negb (truthy (trim (input s))) || negb (truthy (apiKey s)));
    [by left | by right].
Qed.

Lemma handleSendDone_requests now r s :
  requests (handleSendDone now r s) = requests s ∧ isLoading (handleSendDone now r s) = false.
Proof. by destruct r as [[t|]|]. Qed.

(** Whenever the loading flag is up a request is in flight. *)
Lemma loading_in_flight_step e c :
  (settled c ≤ length (requests (view c)))%nat →
  (isLoading (view c) = true → 0 < inFlight c)%nat →
  (settled (chatStep e c) ≤ length (requests (view (chatStep e c))))%nat ∧
  (isLoading (view (chatStep e c)) = true → 0 < inFlight (chatStep e c))%nat.
Proof.
  unfold inFlight. intros Hle Hload.
  assert (Hsend : ∀ now,
            (settled c ≤ length (requests (handleSend now (view c))))%nat ∧
            (isLoading (handleSend now (view c)) = true →
             0 < length (requests (handleSend now (view c))) - settled c)%nat).
  { intros now. destruct (handleSend_requests now (view c)) as [-> | [-> _]]; [done|].
    rewrite length_app. cbn [length]. lia. }
  destruct e as [text|key now|now|now r]; cbn [chatStep view settled].
  - done.
  - unfold keyDown. by destruct (bool_decide (key = "Enter")).
  - unfold clickSend. by destruct (sendDisabled (view c)).
  - unfold inFlight. case_bool_decide as Hflight; [|done]. cbn [view settled].
    destruct (handleSendDone_requests now r (view c)) as [-> ->]. split; [lia|done].
Qed.

(** X15.  The send button, the Enter key and the loading flag.  The button is
    disabled exactly when the loading flag is up or the input is blank; a
    click on the enabled button with a key issues one request.  The Enter key
    runs [handleSend] whatever the button shows: with an input that is not
    blank and a key it issues a request even when the flag is up; any other
    key does nothing.  The flag is not the same as a request being in flight.
    In every chat that the events reach from the start, a request is in
    flight whenever the flag is up.  The converse fails: when the flag is up
    and Enter has issued a further request, the first of the requests to
    settle lowers the flag; a request is still in flight then, and as soon as
    the input is not blank the button is enabled. *)
Theorem enter_sends_while_loading (s : State) (now : N) :
  (sendDisabled s = true ↔ isLoading s = true ∨ blank (input s) = true) ∧
  (sendDisabled s = true → clickSend now s = s) ∧
  (sendDisabled s = false → truthy (apiKey s) = true →
     requests (clickSend now s) = requests s ++ [request (messages s) (input s)]) ∧
  (blank (input s) = false → truthy (apiKey s) = true →
     requests (keyDown "Enter" now s) = requests s ++ [request (messages s) (input s)]) ∧
  (∀ key, key ≠ "Enter" → keyDown key now s = s) ∧
  (∀ key events, let c := chatRun events (chatStart key) in
     isLoading (view c) = true → (0 < inFlight c)%nat) ∧
  (∀ n text text' now' r,
     let c := {| view := s; settled := n |} in
     let c' := chatRun [TypeText text; KeyDown "Enter" now; Settled now' r; TypeText text'] c in
     isLoading s = true → (0 < inFlight c)%nat → truthy (apiKey s) = true →
     blank text = false → blank text' = false →
     (0 < inFlight c')%nat ∧ isLoading (view c') = false ∧ sendDisabled (view c') = false).
Proof.
  assert (Hsend : ∀ s, blank (input s) = false → truthy (apiKey s) = true →
            requests (handleSend now s) = requests s ++ [request (messages s) (input s)]).
  { intros s0 Hblank Hkey. unfold handleSend. by rewrite truthy_trim, Hblank, Hkey. }
  unfold clickSend, keyDown, sendDisabled. rewrite truthy_trim, negb_involutive.
  split_and!.
  - rewrite orb_true_iff. tauto.
  - by intros ->.
  - intros [Hload Hblank]%orb_false_elim Hkey. rewrite Hload, Hblank. simpl. by apply Hsend.
  - intros Hblank Hkey. rewrite bool_decide_eq_true_2 by done. by apply Hsend.
  - intros key Hkey. by rewrite bool_decide_eq_false_2.
  - intros key events.
    assert (Hinv : (settled (chatRun events (chatStart key))
                    ≤ length (requests (view (chatRun events (chatStart key)))))%nat ∧
                   (isLoading (view (chatRun events (chatStart key))) = true →
                    0 < inFlight (chatRun events (chatStart key)))%nat); [|by destruct Hinv].
    induction events as [|e events IH] using rev_ind; [split; [cbn; lia|done]|].
    unfold chatRun. rewrite foldl_app. cbn [foldl].
    destruct IH as [Hle Hload]. by apply loading_in_flight_step.
  - intros n text text' now' r Hload Hflight Hkey Htext Htext'.
    unfold chatRun, inFlight in *. cbn [foldl chatStep view settled] in *.
    unfold keyDown. rewrite (bool_decide_eq_true_2 ("Enter" = "Enter")) by done.
    set (s1 := handleSend now (setInput text s)).
    assert (Hreq : length (requests s1) = S (length (requests s))).
    { unfold s1. rewrite Hsend by done. rewrite length_app. cbn [length requests setInput]. lia. }
    unfold inFlight. cbn [view settled].
    rewrite bool_decide_eq_true_2 by lia. cbn [view settled].
    destruct (handleSendDone_requests now' r s1) as [Hreq' Hload'].
    split_and!.
    + cbn [requests setInput]. rewrite Hreq', Hreq. lia.
    + cbn [isLoading setInput]. exact Hload'.
    + rewrite truthy_trim. cbn [isLoading input setInput]. by rewrite Hload', Htext'.
Qed.

Lemma enter_sends_while_loading_witness :
  let c := {| view := typedWhileLoading; settled := 0 |} in
  let c' := chatRun [TypeText "b"; KeyDown "Enter" 11; Settled 12 (Answer (Some "c"));
                     TypeText "d"] c in
  isLoading typedWhileLoading = true ∧ sendDisabled typedWhileLoading = true ∧
  blank (input typedWhileLoading) = false ∧
  clickSend 11 typedWhileLoading = typedWhileLoading ∧
  length (requests (keyDown "Enter" 11 typedWhileLoading)) = 2%nat ∧
  (0 < inFlight (chatRun [TypeText "a"; KeyDown "Enter" 10] (chatStart "key")))%nat ∧
  (0 < inFlight c')%nat ∧ isLoading (view c') = false ∧ sendDisabled (view c') = false.
Proof.
  intros c c'.
  destruct (enter_sends_while_loading typedWhileLoading 11)
    as (_ & Hclick & _ & Henter & _ & Hflight & Hconverse).
  assert (Hc' : (0 < inFlight c')%nat ∧ isLoading (view c') = false ∧
                sendDisabled (view c') = false).
  { apply (Hconverse 0%nat "b" "d" 12 (Answer (Some "c")));
      [reflexivity | vm_compute; lia | reflexivity..]. }
  split_and!; [reflexivity.. | | | | apply Hc' | apply Hc' | apply Hc'].
  - apply Hclick. reflexivity.
  - rewrite Henter by reflexivity. reflexivity.
  - apply (Hflight "key" [TypeText "a"; KeyDown "Enter" 10]). reflexivity.
Defined.

End DeepChatTalkProofs.

(** * Facts about the application *)

Module AppProofs.
Import App.

Lemma showApiKeyError_clicks ms s :
  showApiKeyError (foldl (λ s m, clickMode m s) s ms) = showApiKeyError s ∧
  apiKey (foldl (λ s m, clickMode m s) s ms) = apiKey s ∧
  (showApiKeyError s = false →
   mode (foldl (λ s m, clickMode m s) s ms) = default (mode s) (last ms)).
Proof.
  revert s. induction ms as [|m ms IH]; intros s; [done|]. simpl.
  destruct (IH (clickMode m s)) as (E1 & E2 & E3). rewrite E1, E2.
  assert (Hclick : showApiKeyError (clickMode m s) = showApiKeyError s ∧
                   apiKey (clickMode m s) = apiKey s ∧
                   (showApiKeyError s = false → mode (clickMode m s) = m)).
  { unfold clickMode, render. destruct (showApiKeyError s) eqn:Hs; [done|].
    by destruct (mode s). }
  destruct Hclick as (C1 & C2 & C3). split_and!; [done..|].
  intros Hs. rewrite E3 by congruence. rewrite C3 by done.
  destruct ms as [|m' ms]; [done|]. rewrite ?last_cons_cons.
  destruct (last (m' :: ms)) eqn:Hlast; [done | by apply last_None in Hlast].
Qed.

(** X13.  The application never shows a view without a key.  When
    [process.env.API_KEY] is not set or is the empty string, the error screen
    is shown, at the start and ever after.  Otherwise the live call is shown
    first and each click in the navigation shows the view clicked, and the
    view is given the key of the environment, which is not empty: the test of
    the key in the views is a second line of defence. *)
Theorem no_view_without_key (env : option string) (clicks : list AppMode) :
  let s := foldl (λ s m, clickMode m s) (initial env) clicks in
  (env = None ∨ env = Some "" → render s = ApiKeyMissing) ∧
  (∀ key, env = Some key → truthy key = true →
     render s = match default LIVE_VIDEO (last clicks) with
                | LIVE_VIDEO => TalkToMaya key
                | DEEP_THOUGHT => DeepAdvice key
                end) ∧
  match render s with
  | ApiKeyMissing => True
  | TalkToMaya key | DeepAdvice key => truthy key = true ∧ env = Some key
  end.
Proof.
  intros s.
  destruct (showApiKeyError_clicks clicks (initial env)) as (Hshow & Hkey & Hmode).
  fold s in Hshow, Hkey, Hmode. unfold render. rewrite Hshow, Hkey.
  destruct env as [[|c key]|]; simpl in *.
  - split_and!; [done | by intros ? [= <-] | done].
  - rewrite Hmode by done. split_and!.
    + by intros [|].
    + intros ? [= <-] _. by destruct (last clicks) as [[]|].
    + by destruct (last clicks) as [[]|].
  - split_and!; [done | by intros ? [=] | done].
Qed.

Lemma no_view_without_key_witness :
  render (foldl (λ s m, clickMode m s) (initial (Some ""))
            [DEEP_THOUGHT; LIVE_VIDEO]) = ApiKeyMissing ∧
  render (foldl (λ s m, clickMode m s) (initial (Some "key"))
            [LIVE_VIDEO; DEEP_THOUGHT]) = DeepAdvice "key".
Proof.
  split.
  - by apply (no_view_without_key (Some "") [DEEP_THOUGHT; LIVE_VIDEO]); right.
  - by apply (proj1 (proj2 (no_view_without_key (Some "key") [LIVE_VIDEO; DEEP_THOUGHT]))).
Defined.

End AppProofs.
